(** * The colour configuration store and the git repository scan

    A shallow embedding of [core/color_config.py] (class [ColorConfig]) and of
    the two helpers [_find_all_git_repositories] and [_get_branch_name] of
    [modules/git_manager/git_manager.py], with the properties the
    specification states about them.

    Layout: the slice of the Python runtime the code relies on ([Py]), the
    store ([Store]), the scan ([Git]), a codec to run the store on concrete
    files ([Codec]), the wording of the specification ([Wording]), fixtures,
    then the lemmas on the store and on the scan.

    Besides: the other methods of the store and the singleton
    ([StoreApi]), the Apply button of the colour panel of [core/qt_core.py]
    ([Panel]) and the saved tasks of the Git manager ([Tasks]), with what
    the code shows about them. *)

From Stdlib Require Import ZArith Ascii String DecimalString.
From stdpp Require Import gmap strings list fin_maps.

Set Warnings "-register-all".
Open Scope string_scope.

(* ===================================================================== *)
(** ** The Python runtime, as far as the code uses it                     *)
(* ===================================================================== *)

Module Py.

(** Exceptions that the modelled code can meet. *)
Inductive exn : Type :=
  | AttributeError
  | TypeError
  | KeyError
  | JSONDecodeError
  | FileNotFoundError
  | NotADirectoryError
  | PermissionError
  | RecursionError.

(** [isinstance(e, OSError)]; [IOError] is another name of [OSError]. *)
Definition is_OSError (e : exn) : bool :=
  match e with
  | FileNotFoundError | NotADirectoryError | PermissionError => true
  | _ => false
  end.

Definition is_PermissionError (e : exn) : bool :=
  match e with
  | PermissionError => true
  | _ => false
  end.

(** Outcome of a call: a value or a raised exception. *)
Inductive result (A : Type) : Type :=
  | Ok (a : A)
  | Raise (e : exn).
Arguments Ok {A} a.
Arguments Raise {A} e.

Definition is_ok {A} (r : result A) : bool :=
  match r with Ok _ => true | Raise _ => false end.

(** A piece of code that works on mutable state [S]: it may raise, and what
    it did to the state before raising stays done. *)
Definition M (S A : Type) : Type := S -> result A * S.

Definition ret {S A} (a : A) : M S A := fun s => (Ok a, s).

Definition raise {S A} (e : exn) : M S A := fun s => (Raise e, s).

Definition bind {S A B} (m : M S A) (k : A -> M S B) : M S B :=
  fun s =>
    match m s with
    | (Ok a, s') => k a s'
    | (Raise e, s') => (Raise e, s')
    end.

Definition lift {S A} (r : result A) : M S A := fun s => (r, s).

Definition gets {S A} (f : S -> A) : M S A := fun s => (Ok (f s), s).

Definition modify {S} (f : S -> S) : M S unit := fun s => (Ok tt, f s).

(** [try: body / except <the exceptions that handles accepts>: handler] *)
Definition try_except {S} (body : M S unit) (handles : exn -> bool) (handler : M S unit)
    : M S unit :=
  fun s =>
    match body s with
    | (Ok tt, s') => (Ok tt, s')
    | (Raise e, s') => if handles e then handler s' else (Raise e, s')
    end.

Declare Scope py_scope.
Delimit Scope py_scope with py.
Notation "x <- m ;; k" := (bind m (fun x => k))
  (at level 100, m at next level, right associativity) : py_scope.
Notation "m ;; k" := (bind m (fun _ => k))
  (at level 100, right associativity) : py_scope.

(** What [json.load] returns and [json.dump] accepts.  A [dict] compares
    without regard to key order, which is the equality of [gmap].  A float is
    kept as the decimal literal [m * 10^e] that stands for it. *)
Inductive json : Type :=
  | JNull
  | JBool (b : bool)
  | JInt (z : Z)
  | JFloat (m e : Z)
  | JStr (s : string)
  | JArr (l : list json)
  | JObj (d : gmap string json).

(** [s.startswith(p)] *)
Definition startswith (p s : string) : bool := String.prefix p s.

(** [needle in haystack] on two [str]: substring test. *)
Fixpoint str_contains (needle haystack : string) : bool :=
  String.prefix needle haystack ||
  match haystack with
  | EmptyString => false
  | String _ rest => str_contains needle rest
  end.

(** [x == k] for a JSON value [x] and a [str] [k]. *)
Definition eq_str (k : string) (x : json) : bool :=
  match x with
  | JStr s => String.eqb s k
  | _ => false
  end.

(** [k in o] for a [str] key [k]. *)
Definition contains (k : string) (o : json) : result bool :=
  match o with
  | JObj d => Ok (bool_decide (is_Some (d !! k)))
  | JArr l => Ok (existsb (eq_str k) l)
  | JStr s => Ok (str_contains k s)
  | JNull | JBool _ | JInt _ | JFloat _ _ => Raise TypeError
  end.

(** [o.get(k, default)]: only a [dict] has the method. *)
Definition get (o : json) (k : string) (default : json) : result json :=
  match o with
  | JObj d => Ok (from_option id default (d !! k))
  | _ => Raise AttributeError
  end.

(** [o[k]] for a [str] key [k]. *)
Definition getitem (o : json) (k : string) : result json :=
  match o with
  | JObj d => match d !! k with Some v => Ok v | None => Raise KeyError end
  | _ => Raise TypeError
  end.

(** [o[k] = v] for a [str] key [k]; the updated object is returned. *)
Definition setitem (o : json) (k : string) (v : json) : result json :=
  match o with
  | JObj d => Ok (JObj (<[k := v]> d))
  | _ => Raise TypeError
  end.

(** [o.copy()]: a [dict] and a [list] have the method. *)
Definition copy (o : json) : result json :=
  match o with
  | JObj _ | JArr _ => Ok o
  | _ => Raise AttributeError
  end.

(** [a or b] on an optional [str]: [None] and [""] are falsy. *)
Definition or_else (a : option string) (b : string) : string :=
  match a with
  | Some (String c s) => String c s
  | Some EmptyString | None => b
  end.

(** *** [posixpath] *)

Definition sep : ascii := "/"%char.

Definition is_sep (c : ascii) : bool := Ascii.eqb c sep.

Definition is_empty (s : string) : bool :=
  match s with EmptyString => true | String _ _ => false end.

(** [p[:p.rfind('/') + 1]] *)
Fixpoint upto_last_sep (p : string) : string :=
  match p with
  | EmptyString => EmptyString
  | String c rest =>
      let h := upto_last_sep rest in
      if negb (is_empty h) then String c h
      else if is_sep c then String c EmptyString
      else EmptyString
  end.

(** [s.rstrip('/')] *)
Fixpoint rstrip_sep (s : string) : string :=
  match s with
  | EmptyString => EmptyString
  | String c rest =>
      let r := rstrip_sep rest in
      if is_empty r && is_sep c then EmptyString else String c r
  end.

(** [s == '/' * len(s)] *)
Fixpoint all_sep (s : string) : bool :=
  match s with
  | EmptyString => true
  | String c rest => is_sep c && all_sep rest
  end.

(** [os.path.dirname] *)
Definition dirname (p : string) : string :=
  let head := upto_last_sep p in
  if negb (is_empty head) && negb (all_sep head) then rstrip_sep head
  else head.

Fixpoint endswith_sep (s : string) : bool :=
  match s with
  | EmptyString => false
  | String c EmptyString => is_sep c
  | String _ rest => endswith_sep rest
  end.

(** [os.path.join(a, b)] *)
Definition join (a b : string) : string :=
  if startswith "/" b then b
  else if is_empty a || endswith_sep a then a +:+ b
  else a +:+ "/" +:+ b.

(** *** [str.strip] on ASCII white space *)

Definition is_space (c : ascii) : bool :=
  let n := nat_of_ascii c in
  ((9 <=? n)%nat && (n <=? 13)%nat) || ((28 <=? n)%nat && (n <=? 32)%nat).

Fixpoint lstrip (s : string) : string :=
  match s with
  | EmptyString => EmptyString
  | String c rest => if is_space c then lstrip rest else s
  end.

Fixpoint rstrip (s : string) : string :=
  match s with
  | EmptyString => EmptyString
  | String c rest =>
      let r := rstrip rest in
      if is_empty r && is_space c then EmptyString else String c r
  end.

Definition strip (s : string) : string := rstrip (lstrip s).

End Py.

(* ===================================================================== *)
(** ** [core/color_config.py]: the configuration store                    *)
(* ===================================================================== *)

Module Store.
Import Py.

(** What the store takes from its host: the [json] codec and the place of
    the application.  [json_load] answers [None] where [json.load] raises
    [JSONDecodeError]. *)
Class Host : Type := {
  json_dump : json -> string;
  json_load : string -> option json;
  APP_ROOT : string
}.

(** The attributes of a [ColorConfig] object.  [self.config] is a [dict] in
    every constructed object.  After [self.config["modules"] =
    self.module_colors] both names denote one object: [modules_shared] records
    that, and the entry of [config] under ["modules"] is then read through
    [module_colors] (see [document]). *)
Record ColorConfig : Type := {
  config_path : string;
  config : gmap string json;
  module_colors : json;
  modules_shared : bool
}.

(** Regular files by path, with their text.  The model has no permissions
    and no full disks: [open] succeeds on every path, and [os.makedirs]
    fails only on the empty path, which it rejects on every file system. *)
Abbreviation files := (gmap string string).

Record World : Type := { self : ColorConfig; disk : files }.

(** [self.config] as Python sees it. *)
Definition document (c : ColorConfig) : gmap string json :=
  if modules_shared c then <["modules" := module_colors c]> (config c)
  else config c.

Open Scope py_scope.

(** Reading and updating the attributes of [self]. *)
Definition read {A} (f : ColorConfig -> A) : M World A := gets (fun w => f (self w)).

Definition update (f : ColorConfig -> ColorConfig) : M World unit :=
  modify (fun w => {| self := f (self w); disk := disk w |}).

(** [self.config = d] for a fresh [dict] [d]. *)
Definition rebind_config (d : gmap string json) (c : ColorConfig) : ColorConfig :=
  {| config_path := config_path c;
     config := d;
     module_colors := module_colors c;
     modules_shared := false |}.

(** [self.config[k] = v] for a key other than ["modules"]. *)
Definition set_config_item (k : string) (v : json) (c : ColorConfig) : ColorConfig :=
  {| config_path := config_path c;
     config := <[k := v]> (config c);
     module_colors := module_colors c;
     modules_shared := modules_shared c |}.

(** [self.config["modules"] = v] for a fresh object [v]. *)
Definition set_config_modules (v : json) (c : ColorConfig) : ColorConfig :=
  {| config_path := config_path c;
     config := <["modules" := v]> (config c);
     module_colors := module_colors c;
     modules_shared := false |}.

(** [self.config["modules"] = self.module_colors] *)
Definition share_modules (c : ColorConfig) : ColorConfig :=
  {| config_path := config_path c;
     config := <["modules" := module_colors c]> (config c);
     module_colors := module_colors c;
     modules_shared := true |}.

(** [self.module_colors = v] for a fresh object [v]: the object held so far
    stays in [self.config] where it was shared. *)
Definition rebind_module_colors (v : json) (c : ColorConfig) : ColorConfig :=
  {| config_path := config_path c;
     config := document c;
     module_colors := v;
     modules_shared := false |}.

(** An update in place of the object [self.module_colors]. *)
Definition mutate_module_colors (v : json) (c : ColorConfig) : ColorConfig :=
  {| config_path := config_path c;
     config := config c;
     module_colors := v;
     modules_shared := modules_shared c |}.

(** [os.makedirs(d, exist_ok=True)] *)
Definition makedirs (d : string) : M World unit :=
  if is_empty d then raise FileNotFoundError else ret tt.

(** [os.path.exists(p)] *)
Definition exists_ (p : string) : M World bool :=
  gets (fun w => bool_decide (is_Some (disk w !! p))).

(** [with open(p, 'r') as f: f.read()] *)
Definition read_file (p : string) : M World string :=
  fun w =>
    match disk w !! p with
    | Some text => (Ok text, w)
    | None => (Raise FileNotFoundError, w)
    end.

(** [with open(p, 'w') as f: f.write(text)] *)
Definition write_file (p text : string) : M World unit :=
  modify (fun w => {| self := self w; disk := <[p := text]> (disk w) |}).

(** A [dict] literal. *)
Definition dict (items : list (string * json)) : json := JObj (list_to_map items).

Definition color_pair (bg fg : json) : json :=
  dict [("bg_color", bg); ("fg_color", fg)].

Definition default_window : json := color_pair (JStr "#00c8f9") (JStr "#ffffff").

Definition default_config : gmap string json :=
  list_to_map
    [("version", JStr "1.0");
     ("description", JStr "Color configuration for application modules");
     ("modules", dict []);
     ("window", default_window);
     ("settings", dict [("auto_apply", JBool true); ("preview_changes", JBool true)])].

Section Methods.
Context `{Host}.

Definition DEFAULT_CONFIG_PATH : string :=
  join (join APP_ROOT "config") "colors.json".

(** [ColorConfig.save_config] *)
Definition save_config (path : option string) : M World unit :=
  save_path <- read (fun c => or_else path (config_path c)) ;;
  makedirs (dirname save_path) ;;
  update share_modules ;;
  text <- read (fun c => json_dump (JObj (document c))) ;;
  write_file save_path text.

(** [ColorConfig._create_default_config] *)
Definition _create_default_config : M World unit :=
  update (rebind_config default_config) ;;
  update (rebind_module_colors (dict [])) ;;
  save_config None.

(** [json.load(f)] *)
Definition load_json (text : string) : M World json :=
  match json_load text with
  | Some v => ret v
  | None => raise JSONDecodeError
  end.

(** [ColorConfig._load_config].  A text that parses to something other than
    a [dict] makes [self.config.get] raise [AttributeError], which the
    [except] clause does not catch: the constructor fails and no object
    comes into being. *)
Definition _load_config : M World unit :=
  p <- read config_path ;;
  present <- exists_ p ;;
  if present then
    try_except
      (text <- read_file p ;;
       parsed <- load_json text ;;
       match parsed with
       | JObj d =>
           update (rebind_config d) ;;
           update (fun c =>
             {| config_path := config_path c;
                config := config c;
                module_colors := from_option id (dict []) (d !! "modules");
                modules_shared := bool_decide (is_Some (d !! "modules")) |})
       | _ => raise AttributeError
       end)
      (fun e => match e with JSONDecodeError => true | _ => is_OSError e end)
      _create_default_config
  else _create_default_config.

(** [ColorConfig.__init__], from the files on disk. *)
Definition __init__ (config_path : option string) (d : files) : result unit * World :=
  _load_config
    {| self :=
         {| Store.config_path := or_else config_path DEFAULT_CONFIG_PATH;
            config := ∅;
            module_colors := dict [];
            modules_shared := false |};
       disk := d |}.

(** [ColorConfig.get_module_color]; Python's [None] is [JNull]. *)
Definition get_module_color (module_name color_type : string) : M World json :=
  colors <- read module_colors ;;
  module_config <- lift (get colors module_name (dict [])) ;;
  lift (get module_config color_type JNull).

(** [ColorConfig.set_module_color].  The assignment
    [self.module_colors[module_name][color_type] = color_value] reads the
    entry and updates it in place; the last [setitem] puts the updated entry
    where the model, which has values and no references, keeps it. *)
Definition set_module_color
    (module_name color_type color_value : string) (auto_save : bool) : M World unit :=
  colors <- read module_colors ;;
  present <- lift (contains module_name colors) ;;
  (if present then ret tt
   else
     colors' <- lift (setitem colors module_name (dict [])) ;;
     update (mutate_module_colors colors')) ;;
  colors <- read module_colors ;;
  entry <- lift (getitem colors module_name) ;;
  entry' <- lift (setitem entry color_type (JStr color_value)) ;;
  colors' <- lift (setitem colors module_name entry') ;;
  update (mutate_module_colors colors') ;;
  if auto_save then save_config None else ret tt.

(** The table [module_themes] of [register_module]. *)
Definition module_themes : json :=
  dict
    [("Dashboard", color_pair (JStr "#ffffff") (JStr "#2c3e50"));
     ("System Status", color_pair (JStr "#1a1a2e") (JStr "#00d4ff"));
     ("Git Manager", color_pair (JStr "#0d1117") (JStr "#58a6ff"));
     ("Log", color_pair (JStr "#000000") (JStr "#00ff00"))].

(** [ColorConfig.register_module] *)
Definition register_module (module_name default_bg default_fg : string) : M World unit :=
  theme_colors <- lift (get module_themes module_name (dict [])) ;;
  theme_bg <- lift (get theme_colors "bg_color" (JStr default_bg)) ;;
  theme_fg <- lift (get theme_colors "fg_color" (JStr default_fg)) ;;
  colors <- read module_colors ;;
  present <- lift (contains module_name colors) ;;
  if present then ret tt
  else
    colors' <- lift (setitem colors module_name (color_pair theme_bg theme_fg)) ;;
    update (mutate_module_colors colors') ;;
    save_config None.

(** [ColorConfig.reset_to_defaults] *)
Definition reset_to_defaults : M World unit :=
  update (rebind_module_colors (dict [])) ;;
  update (set_config_modules (dict [])) ;;
  update (set_config_item "window" default_window) ;;
  save_config None.

(** [ColorConfig.get_settings] *)
Definition get_settings : M World json :=
  read (fun c => from_option id (dict []) (document c !! "settings")).

(** [ColorConfig.get_window_colors] *)
Definition get_window_colors : M World json :=
  window <- read (fun c => from_option id default_window (document c !! "window")) ;;
  lift (copy window).

(** [ColorConfig.get_applied_colors] *)
Definition get_applied_colors : M World json :=
  read (fun c => from_option id (dict []) (document c !! "modules")).

End Methods.
End Store.

(* ===================================================================== *)
(** ** [modules/git_manager/git_manager.py]: repository discovery         *)
(* ===================================================================== *)

Module Git.
Import Py.
Open Scope py_scope.

(** What a path denotes.  [Locked] is a directory that [os.listdir] may not
    read; a path outside the map does not exist. *)
Inductive node : Type :=
  | File
  | Dir (names : list string)
  | Locked.

Abbreviation tree := (gmap string node).

(** [os.path.isdir] *)
Definition isdir (t : tree) (p : string) : bool :=
  match t !! p with
  | Some (Dir _) | Some Locked => true
  | Some File | None => false
  end.

(** [os.listdir] *)
Definition listdir (t : tree) (p : string) : result (list string) :=
  match t !! p with
  | Some (Dir names) => Ok names
  | Some Locked => Raise PermissionError
  | Some File => Raise NotADirectoryError
  | None => Raise FileNotFoundError
  end.

(** How [subprocess.run(..., capture_output=True, text=True, timeout=5)]
    ends: the process exits, the timeout expires, or the call raises
    something else (no [git] executable, a vanished directory, ...). *)
Inductive outcome : Type :=
  | Completed (returncode : Z) (stdout : string)
  | TimeoutExpired
  | Failed.

(** The command line and the working directory decide the outcome. *)
Definition runner : Type := list string -> string -> outcome.

Definition abbrev_ref_head : list string := ["git"; "rev-parse"; "--abbrev-ref"; "HEAD"].
Definition short_head : list string := ["git"; "rev-parse"; "--short"; "HEAD"].

(** [GitManagerModule._get_branch_name] *)
Definition _get_branch_name (run : runner) (repo_path : string) : string :=
  match run abbrev_ref_head repo_path with
  | Completed returncode stdout =>
      if (returncode =? 0)%Z then strip stdout
      else
        match run short_head repo_path with
        | Completed returncode' stdout' =>
            if (returncode' =? 0)%Z then "detached-" +:+ strip stdout'
            else "Unknown"
        | TimeoutExpired | Failed => "Unknown"
        end
  | TimeoutExpired | Failed => "Unknown"
  end.

(** An element of [repos]. *)
Record repo : Type := { path : string; name : string; branch : string }.

(** The two variables that [search_directory] closes over. *)
Record found : Type := { repos : list repo; found_paths : gset string }.

Definition nothing_found : found := {| repos := []; found_paths := ∅ |}.

(** A [for] loop whose body may raise. *)
Fixpoint for_each {S} (body : string -> M S unit) (items : list string) : M S unit :=
  match items with
  | [] => ret tt
  | item :: rest => body item ;; for_each body rest
  end.

Section Scan.
Context (t : tree) (run : runner).

(** [found_paths.add(item_path)] *)
Definition add_found_path (item_path : string) (a : found) : found :=
  {| repos := repos a; found_paths := {[item_path]} ∪ found_paths a |}.

(** [repos.append(r)] *)
Definition append_repo (r : repo) (a : found) : found :=
  {| repos := repos a ++ [r]; found_paths := found_paths a |}.

(** The body of the loop over [os.listdir(path)]; [search] is the recursive
    call. *)
Definition visit (search : string -> M found unit) (path item : string) : M found unit :=
  if startswith "." item then ret tt
  else
    let item_path := join path item in
    if isdir t item_path then
      let git_path := join item_path ".git" in
      seen <- gets (fun a => bool_decide (item_path ∈ found_paths a)) ;;
      (if isdir t git_path && negb seen then
         modify (add_found_path item_path) ;;
         let branch := _get_branch_name run item_path in
         modify (append_repo {| path := item_path; name := item; branch := branch |})
       else ret tt) ;;
      search item_path
    else ret tt.

(** The local function [search_directory].  [fuel] bounds the nesting of
    calls; what [_find_all_git_repositories] supplies is never used up
    (lemma [search_directory_spec]). *)
Fixpoint search_directory (fuel : nat) (path : string) (depth : nat) : M found unit :=
  match fuel with
  | O => raise RecursionError
  | S fuel' =>
      if (3 <? depth)%nat then ret tt
      else
        try_except
          (items <- lift (listdir t path) ;;
           for_each (visit (fun p => search_directory fuel' p (depth + 1)) path) items)
          is_PermissionError
          (ret tt)
  end.

(** [GitManagerModule._find_all_git_repositories] *)
Definition _find_all_git_repositories (root_path : string) : result (list repo) :=
  match search_directory 5 root_path 0 nothing_found with
  | (Ok tt, a) => Ok (repos a)
  | (Raise e, _) => Raise e
  end.

(** The scan reports the path [q]. *)
Definition reports (root_path q : string) : Prop :=
  exists rs, _find_all_git_repositories root_path = Ok rs /\ q ∈ path <$> rs.

End Scan.

(** Following [chain], a list of entry names, down from [p]: every name is
    listed in the directory reached so far, passes [keep] and denotes a
    directory.  The answer is the path reached. *)
Fixpoint walk (keep : string -> bool) (t : tree) (p : string) (chain : list string)
    : option string :=
  match chain with
  | [] => Some p
  | item :: rest =>
      match t !! p with
      | Some (Dir names) =>
          if bool_decide (item ∈ names) && keep item && isdir t (join p item)
          then walk keep t (join p item) rest
          else None
      | _ => None
      end
  end.

Definition any_name (item : string) : bool := true.

Definition not_hidden (item : string) : bool := negb (startswith "." item).

(** A directory holding a [.git] directory. *)
Definition marked (t : tree) (q : string) : bool := isdir t (join q ".git").

(** The scan as the specification words it: the subdirectories at depths 1
    to [bound] below the root that hold a [.git] directory. *)
Definition spec_reports (bound : nat) (t : tree) (root_path q : string) : Prop :=
  exists chain,
    (1 <= length chain <= bound)%nat /\
    walk any_name t root_path chain = Some q /\ marked t q = true.

(** Entry names as a file system gives them: not empty, no separator. *)
Definition proper_name (item : string) : bool :=
  negb (is_empty item) && negb (str_contains "/" item).

Definition proper_node (n : node) : bool :=
  match n with
  | Dir names => forallb proper_name names
  | File | Locked => true
  end.

Definition proper_names (t : tree) : bool :=
  forallb (fun entry => proper_node (snd entry)) (map_to_list t).

(** The paths reached from [p] by chains of one to [n] names. *)
Fixpoint descend (keep : string -> bool) (t : tree) (n : nat) (p : string) : list string :=
  match n with
  | O => []
  | S n' =>
      match t !! p with
      | Some (Dir names) =>
          flat_map
            (fun item =>
               if keep item && isdir t (join p item)
               then join p item :: descend keep t n' (join p item)
               else [])
            names
      | _ => []
      end
  end.

(** *** The vocabulary of the proofs *)

(** A search that starts in [p] at [depth] comes across the marked
    directory [q]. *)
Definition reach (t : tree) (depth : nat) (p q : string) : Prop :=
  exists chain,
    (1 <= length chain)%nat /\ (depth + length chain <= 4)%nat /\
    walk not_hidden t p chain = Some q /\ marked t q = true.

(** The same for an element of [repos], with what it records. *)
Definition discovered (t : tree) (run : runner) (depth : nat) (p : string) (r : repo) : Prop :=
  exists parents,
    (depth + length parents <= 3)%nat /\
    walk not_hidden t p (parents ++ [name r])%list = Some (path r) /\
    marked t (path r) = true /\
    branch r = _get_branch_name run (path r).

(** [repos] and [found_paths] go together, and no path is listed twice. *)
Definition consistent (a : found) : Prop :=
  NoDup (path <$> repos a) /\
  forall q, q ∈ found_paths a <-> q ∈ path <$> repos a.

(** What a piece of the search adds to [repos] and [found_paths], where
    [hits] are the repositories and [paths] the paths it may come across. *)
Record extends (hits : repo -> Prop) (paths : string -> Prop) (a a' : found) : Prop := {
  extends_repos : exists new, repos a' = (repos a ++ new)%list /\ Forall hits new;
  extends_found : forall q, q ∈ found_paths a' <-> q ∈ found_paths a \/ paths q;
  extends_consistent : consistent a -> consistent a'
}.

(** The loop over the entries of [p] goes into [item]. *)
Definition enters (t : tree) (p item : string) : Prop :=
  exists names,
    t !! p = Some (Dir names) /\ item ∈ names /\
    not_hidden item = true /\ isdir t (join p item) = true.

(** What the loop body may come across for the entry [item] of [p]. *)
Definition reach_through (t : tree) (depth : nat) (p item q : string) : Prop :=
  enters t p item /\
  ((q = join p item /\ marked t q = true) \/ reach t (S depth) (join p item) q).

(** [repos] and [found_paths] after the loop body has dealt with the
    directory [item] of [p] itself, before it searches it. *)
Definition recorded (t : tree) (run : runner) (p item : string) (a : found) : found :=
  let item_path := join p item in
  if marked t item_path && negb (bool_decide (item_path ∈ found_paths a)) then
    {| repos :=
         repos a ++
         [{| path := item_path; name := item;
             branch := _get_branch_name run item_path |}];
       found_paths := {[item_path]} ∪ found_paths a |}
  else a.

(** What the recursive call is known to do. *)
Definition search_ok (t : tree) (run : runner)
    (search : string -> M found unit) (depth : nat) : Prop :=
  forall p a, isdir t p = true ->
    exists a', search p a = (Ok tt, a') /\
      extends (discovered t run depth p) (reach t depth p) a a'.

(** The call raised, by an error or by the timeout. *)
Definition raised (o : outcome) : bool :=
  match o with
  | Completed _ _ => false
  | TimeoutExpired | Failed => true
  end.

(** The process ran and exited with a status other than 0. *)
Definition exited_nonzero (o : outcome) : bool :=
  match o with
  | Completed returncode _ => negb (returncode =? 0)%Z
  | TimeoutExpired | Failed => false
  end.

(** No call that the lookup makes gives a usable answer: one of them
    raises, or both exit with a status other than 0. *)
Definition lookup_fails (run : runner) (repo_path : string) : Prop :=
  raised (run abbrev_ref_head repo_path) = true \/
  (exited_nonzero (run abbrev_ref_head repo_path) = true /\
   (raised (run short_head repo_path) = true \/
    exited_nonzero (run short_head repo_path) = true)).

End Git.

(* ===================================================================== *)
(** ** A reference codec                                                  *)
(* ===================================================================== *)

(** A printer in the layout of [json.dump(_, indent=4)] and a reader for
    JSON text, both for ASCII text.  The lemmas on the store hold for every
    [Host]; this one runs the store on concrete files. *)
Module Codec.
Import Py.

Definition dquote : ascii := ascii_of_nat 34.
Definition backslash : ascii := ascii_of_nat 92.
Definition newline : ascii := ascii_of_nat 10.

Definition hex_digit (n : nat) : ascii :=
  if (n <? 10)%nat then ascii_of_nat (48 + n) else ascii_of_nat (87 + n).

Definition escape_char (c : ascii) : string :=
  let n := nat_of_ascii c in
  if Ascii.eqb c dquote then String backslash (String dquote EmptyString)
  else if Ascii.eqb c backslash then String backslash (String backslash EmptyString)
  else if (n =? 10)%nat then "\n"
  else if (n =? 13)%nat then "\r"
  else if (n =? 9)%nat then "\t"
  else if (n =? 8)%nat then "\b"
  else if (n =? 12)%nat then "\f"
  else if (n <? 32)%nat then
    "\u00" +:+ String (hex_digit (n / 16)) (String (hex_digit (n mod 16)) EmptyString)
  else String c EmptyString.

Fixpoint escape (s : string) : string :=
  match s with
  | EmptyString => EmptyString
  | String c rest => escape_char c +:+ escape rest
  end.

Definition quote (s : string) : string :=
  String dquote (escape s +:+ String dquote EmptyString).

Fixpoint spaces (n : nat) : string :=
  match n with O => EmptyString | S n' => String " " (spaces n') end.

Definition line (level : nat) : string := String newline (spaces (4 * level)).

Definition decimal (z : Z) : string := NilZero.string_of_int (Z.to_int z).

Definition block (opening closing : string) (level : nat) (parts : list string) : string :=
  match parts with
  | [] => opening +:+ closing
  | _ =>
      opening +:+ line (S level) +:+
      String.concat ("," +:+ line (S level)) parts +:+
      line level +:+ closing
  end.

Fixpoint dump (level : nat) (v : json) : string :=
  match v with
  | JNull => "null"
  | JBool true => "true"
  | JBool false => "false"
  | JInt z => decimal z
  | JFloat m e => decimal m +:+ "e" +:+ decimal e
  | JStr s => quote s
  | JArr l => block "[" "]" level (map (dump (S level)) l)
  | JObj d =>
      block "{" "}" level
        (map (fun kv => quote (fst kv) +:+ ": " +:+ snd kv)
             (map_to_list (dump (S level) <$> d)))
  end.

Definition is_blank (c : ascii) : bool :=
  let n := nat_of_ascii c in
  (n =? 32)%nat || (n =? 10)%nat || (n =? 13)%nat || (n =? 9)%nat.

Fixpoint skip_blank (s : string) : string :=
  match s with
  | EmptyString => EmptyString
  | String c rest => if is_blank c then skip_blank rest else s
  end.

Definition is_digit (c : ascii) : bool :=
  let n := nat_of_ascii c in (48 <=? n)%nat && (n <=? 57)%nat.

Fixpoint span_digits (s : string) : string * string :=
  match s with
  | EmptyString => (EmptyString, EmptyString)
  | String c rest =>
      if is_digit c then
        let '(digits, rest') := span_digits rest in (String c digits, rest')
      else (EmptyString, s)
  end.

Definition span_int (s : string) : string * string :=
  match s with
  | String c rest =>
      if Ascii.eqb c "-" then
        let '(digits, rest') := span_digits rest in (String c digits, rest')
      else span_digits s
  | EmptyString => (EmptyString, EmptyString)
  end.

Definition read_int (s : string) : option (Z * string) :=
  let '(text, rest) := span_int s in
  z ← NilZero.int_of_string text; Some (Z.of_int z, rest).

Definition read_number (s : string) : option (json * string) :=
  '(m, rest) ← read_int s;
  match rest with
  | String c rest' =>
      if Ascii.eqb c "e" then '(e, rest'') ← read_int rest'; Some (JFloat m e, rest'')
      else Some (JInt m, rest)
  | EmptyString => Some (JInt m, rest)
  end.

Definition hex_value (c : ascii) : option nat :=
  let n := nat_of_ascii c in
  if is_digit c then Some (n - 48)
  else if (97 <=? n)%nat && (n <=? 102)%nat then Some (n - 87)
  else if (65 <=? n)%nat && (n <=? 70)%nat then Some (n - 55)
  else None.

Definition unescape (c : ascii) : option ascii :=
  if Ascii.eqb c dquote then Some dquote
  else if Ascii.eqb c backslash then Some backslash
  else if Ascii.eqb c "/" then Some "/"%char
  else if Ascii.eqb c "n" then Some newline
  else if Ascii.eqb c "r" then Some (ascii_of_nat 13)
  else if Ascii.eqb c "t" then Some (ascii_of_nat 9)
  else if Ascii.eqb c "b" then Some (ascii_of_nat 8)
  else if Ascii.eqb c "f" then Some (ascii_of_nat 12)
  else None.

(** The text of a string literal after its opening quote. *)
Fixpoint read_chars (s : string) : option (string * string) :=
  match s with
  | EmptyString => None
  | String c rest =>
      if Ascii.eqb c dquote then Some (EmptyString, rest)
      else if Ascii.eqb c backslash then
        match rest with
        | String e rest' =>
            if Ascii.eqb e "u" then
              match rest' with
              | String h1 (String h2 (String h3 (String h4 rest''))) =>
                  a ← hex_value h1; b ← hex_value h2; c' ← hex_value h3; d ← hex_value h4;
                  let code := (((a * 16 + b) * 16 + c') * 16 + d)%nat in
                  if (code <? 128)%nat then
                    '(text, after) ← read_chars rest'';
                    Some (String (ascii_of_nat code) text, after)
                  else None
              | _ => None
              end
            else
              ch ← unescape e;
              '(text, after) ← read_chars rest';
              Some (String ch text, after)
        | EmptyString => None
        end
      else if (nat_of_ascii c <? 32)%nat then None
      else '(text, after) ← read_chars rest; Some (String c text, after)
  end.

Definition read_string (s : string) : option (string * string) :=
  match skip_blank s with
  | String c rest => if Ascii.eqb c dquote then read_chars rest else None
  | EmptyString => None
  end.

(** The elements of an array after [[], at least one. *)
Fixpoint read_elements (value : string -> option (json * string)) (n : nat) (s : string)
    : option (list json * string) :=
  match n with
  | O => None
  | S n' =>
      '(v, rest) ← value s;
      match skip_blank rest with
      | String c rest' =>
          if Ascii.eqb c "," then
            '(l, after) ← read_elements value n' rest'; Some (v :: l, after)
          else if Ascii.eqb c "]" then Some ([v], rest')
          else None
      | EmptyString => None
      end
  end.

(** The members of an object after [{], at least one; a repeated key keeps
    its last value. *)
Fixpoint read_members (value : string -> option (json * string)) (n : nat)
    (d : gmap string json) (s : string) : option (gmap string json * string) :=
  match n with
  | O => None
  | S n' =>
      '(k, rest) ← read_string s;
      match skip_blank rest with
      | String c rest' =>
          if Ascii.eqb c ":" then
            '(v, rest'') ← value rest';
            match skip_blank rest'' with
            | String c' after =>
                if Ascii.eqb c' "," then read_members value n' (<[k := v]> d) after
                else if Ascii.eqb c' "}" then Some (<[k := v]> d, after)
                else None
            | EmptyString => None
            end
          else None
      | EmptyString => None
      end
  end.

Fixpoint read_value (fuel : nat) (s : string) : option (json * string) :=
  match fuel with
  | O => None
  | S fuel' =>
      match skip_blank s with
      | EmptyString => None
      | String c rest as s' =>
          if Ascii.eqb c dquote then '(text, after) ← read_chars rest; Some (JStr text, after)
          else if Ascii.eqb c "[" then
            match skip_blank rest with
            | String c' after =>
                if Ascii.eqb c' "]" then Some (JArr [], after)
                else '(l, after') ← read_elements (read_value fuel') fuel' rest;
                     Some (JArr l, after')
            | EmptyString => None
            end
          else if Ascii.eqb c "{" then
            match skip_blank rest with
            | String c' after =>
                if Ascii.eqb c' "}" then Some (JObj ∅, after)
                else '(d, after') ← read_members (read_value fuel') fuel' ∅ rest;
                     Some (JObj d, after')
            | EmptyString => None
            end
          else if String.prefix "null" s' then Some (JNull, String.substring 4 (String.length s' - 4) s')
          else if String.prefix "true" s' then Some (JBool true, String.substring 4 (String.length s' - 4) s')
          else if String.prefix "false" s' then Some (JBool false, String.substring 5 (String.length s' - 5) s')
          else read_number s'
      end
  end.

Definition load (text : string) : option json :=
  '(v, rest) ← read_value (S (String.length text)) text;
  if is_empty (skip_blank rest) then Some v else None.

End Codec.

(** A host with the reference codec, installed under [/opt/app]. *)
Definition reference_host : Store.Host :=
  {| Store.json_dump := Codec.dump 0;
     Store.json_load := Codec.load;
     Store.APP_ROOT := "/opt/app" |}.

(* ===================================================================== *)
(** ** What the specification says, in the terms of the model             *)
(* ===================================================================== *)

Module Wording.
Import Py Store.

(** The document that [save_config] writes. *)
Definition saved_document (c : ColorConfig) : gmap string json :=
  <["modules" := module_colors c]> (config c).

(** The store right after the default document was synthesized and saved. *)
Definition default_store (p : string) : ColorConfig :=
  {| config_path := p;
     config := default_config;
     module_colors := dict [];
     modules_shared := true |}.

(** [_load_config], case by case. *)
Definition load_config_cases `{Host} (w : World) : result unit * World :=
  match disk w !! config_path (self w) with
  | Some text =>
      match json_load text with
      | Some (JObj d) =>
          (Ok tt,
           {| self :=
                {| config_path := config_path (self w);
                   config := d;
                   module_colors := from_option id (dict []) (d !! "modules");
                   modules_shared := bool_decide (is_Some (d !! "modules")) |};
              disk := disk w |})
      | Some _ => (Raise AttributeError, w)
      | None => _create_default_config w
      end
  | None => _create_default_config w
  end.

(** The file is absent, or its text does not parse. *)
Definition unreadable `{Host} (d : files) (p : string) : Prop :=
  d !! p = None \/ exists text, d !! p = Some text /\ json_load text = None.

(** What [module_colors] holds for [module_name] where that is a [dict],
    and the empty [dict] otherwise. *)
Definition entry_of (module_name : string) (d : gmap string json) : gmap string json :=
  match d !! module_name with
  | Some (JObj e) => e
  | _ => ∅
  end.

(** [self.module_colors] is a [dict], and what it holds for [module_name],
    if anything, is a [dict] too (the annotation
    [Dict[str, Dict[str, str]]] asks that of every entry). *)
Definition entry_writable (module_name : string) (colors : json) : bool :=
  match colors with
  | JObj d =>
      match d !! module_name with
      | None | Some (JObj _) => true
      | Some _ => false
      end
  | _ => false
  end.

(** The fixed set of known module names and their theme pairs. *)
Definition builtin_theme (module_name : string) : option (string * string) :=
  if String.eqb module_name "Dashboard" then Some ("#ffffff", "#2c3e50")
  else if String.eqb module_name "System Status" then Some ("#1a1a2e", "#00d4ff")
  else if String.eqb module_name "Git Manager" then Some ("#0d1117", "#58a6ff")
  else if String.eqb module_name "Log" then Some ("#000000", "#00ff00")
  else None.

Definition known_modules : list string :=
  ["Dashboard"; "System Status"; "Git Manager"; "Log"].

(** The pair that a first registration is to insert. *)
Definition registered_pair (module_name default_bg default_fg : string) : json :=
  match builtin_theme module_name with
  | Some (bg, fg) => color_pair (JStr bg) (JStr fg)
  | None => color_pair (JStr default_bg) (JStr default_fg)
  end.

End Wording.

(* ===================================================================== *)
(** ** Fixtures                                                           *)
(* ===================================================================== *)

Module Fixtures.
Import Py Store Git.

Definition themed_colors : gmap string json :=
  list_to_map [("Log", color_pair (JStr "#000000") (JStr "#00ff00"))].

(** A store on [/tmp/ui/colors.json] that holds one module. *)
Definition themed_store : ColorConfig :=
  {| config_path := "/tmp/ui/colors.json";
     config := <["window" := color_pair (JStr "#101010") (JStr "#fefefe")]> default_config;
     module_colors := JObj themed_colors;
     modules_shared := true |}.

Definition themed_world : World := {| self := themed_store; disk := ∅ |}.

(** The store that [ColorConfig("colors.json")] builds from a file that
    holds the empty document. *)
Definition bare_store : ColorConfig :=
  {| config_path := "colors.json";
     config := ∅;
     module_colors := dict [];
     modules_shared := false |}.

Definition bare_world : World :=
  {| self := bare_store; disk := {["colors.json" := "{}"]} |}.

(** [/r] with a repository four levels down and one in a hidden directory. *)
Definition deep_tree : tree :=
  list_to_map
    [("/r", Dir ["a"; ".h"; "notes.txt"]);
     ("/r/notes.txt", File);
     ("/r/a", Dir ["b"]);
     ("/r/a/b", Dir ["c"]);
     ("/r/a/b/c", Dir ["d"]);
     ("/r/a/b/c/d", Dir [".git"; "e"]);
     ("/r/a/b/c/d/.git", Dir []);
     ("/r/a/b/c/d/e", Dir [".git"]);
     ("/r/a/b/c/d/e/.git", Dir []);
     ("/r/.h", Dir [".git"]);
     ("/r/.h/.git", Dir [])].

(** [/w]: a marked root with one repository below it and a locked directory. *)
Definition small_tree : tree :=
  list_to_map
    [("/w", Dir [".git"; "app"; "vault"]);
     ("/w/.git", Dir []);
     ("/w/app", Dir [".git"; "src"]);
     ("/w/app/.git", Dir []);
     ("/w/app/src", Dir []);
     ("/w/vault", Locked)].

(** [git] on a branch. *)
Definition on_main : runner :=
  fun _ _ => Completed 0 "main
".

(** No [git] executable. *)
Definition no_git : runner := fun _ _ => Failed.

(** [git] hangs. *)
Definition hanging : runner := fun _ _ => TimeoutExpired.

(** Both commands exit with status 128. *)
Definition not_a_repo : runner := fun _ _ => Completed 128 "".

(** The first command fails, the fallback prints the commit. *)
Definition fallback_answers : runner :=
  fun args _ =>
    if bool_decide (args = abbrev_ref_head) then Completed 128 ""
    else Completed 0 "1a2b3c4
".

(** The first command fails, the second hangs. *)
Definition fails_then_hangs : runner :=
  fun args _ => if bool_decide (args = abbrev_ref_head) then Completed 128 "" else TimeoutExpired.

End Fixtures.

(* ===================================================================== *)
(** ** [core/color_config.py]: the other methods of the store             *)
(* ===================================================================== *)

Module StoreApi.
Import Py Store.
Open Scope py_scope.

(** [o.update(other)] for a [dict] [other]: only a [dict] has the method;
    the keys of [other] win. *)
Definition dict_update (o : json) (other : gmap string json) : result json :=
  match o with
  | JObj d => Ok (JObj (other ∪ d))
  | _ => Raise AttributeError
  end.

(** [self.config[k]] *)
Definition config_item (k : string) : M World json :=
  item <- read (fun c => document c !! k) ;;
  match item with
  | Some v => ret v
  | None => raise KeyError
  end.

(** The singleton [_color_config_instance] and the files. *)
Record Process : Type := {
  _color_config_instance : option ColorConfig;
  files_on_disk : files
}.

(** [reset_color_config] *)
Definition reset_color_config : M Process unit :=
  modify (fun p =>
    {| _color_config_instance := None; files_on_disk := files_on_disk p |}).

(** A module object: its [name] and its other attributes.  The name is a
    plain [str] attribute, or a method that returns [s]; [shown] is then what
    formatting the method object itself gives. *)
Inductive name_attr : Type :=
  | NoName
  | NameAttribute (s : string)
  | NameMethod (s shown : string).

Record gui_module : Type := {
  module_name_attr : name_attr;
  attributes : gmap string json
}.

(** [getattr(module, 'name', None)], called where it is callable; [None]
    where there is none. *)
Definition resolved_name (m : gui_module) : option string :=
  match module_name_attr m with
  | NoName => None
  | NameAttribute s | NameMethod s _ => Some s
  end.

(** The truth value of a resolved name: [None] and [""] are falsy. *)
Definition named (m : gui_module) : option string :=
  match resolved_name m with
  | Some (String c s) => Some (String c s)
  | Some EmptyString | None => None
  end.

(** [setattr(module, k, v)] for an attribute other than [name]. *)
Definition set_attribute (k : string) (v : json) (m : gui_module) : gui_module :=
  {| module_name_attr := module_name_attr m;
     attributes := <[k := v]> (attributes m) |}.

(** A [for] loop over a list of objects. *)
Fixpoint for_in {S A} (body : A -> M S unit) (items : list A) : M S unit :=
  match items with
  | [] => ret tt
  | item :: rest => body item ;; for_in body rest
  end.

Section Methods.
Context `{Host}.

(** [ColorConfig.get_all_colors] *)
Definition get_all_colors : M World json :=
  colors <- read module_colors ;;
  lift (copy colors).

(** [ColorConfig.get_module_colors] *)
Definition get_module_colors (module_name : string) : M World json :=
  colors <- read module_colors ;;
  entry <- lift (get colors module_name (dict [])) ;;
  lift (copy entry).

(** [ColorConfig.set_window_color].  As in [set_module_color], the entry is
    updated in place. *)
Definition set_window_color (color_type color_value : string) (auto_save : bool)
    : M World unit :=
  present <- read (fun c => bool_decide (is_Some (document c !! "window"))) ;;
  (if present then ret tt
   else update (set_config_item "window" default_window)) ;;
  window <- config_item "window" ;;
  window' <- lift (setitem window color_type (JStr color_value)) ;;
  update (set_config_item "window" window') ;;
  if auto_save then save_config None else ret tt.

(** [ColorConfig.update_settings] *)
Definition update_settings (settings : gmap string json) : M World unit :=
  present <- read (fun c => bool_decide (is_Some (document c !! "settings"))) ;;
  (if present then ret tt
   else update (set_config_item "settings" (dict []))) ;;
  current <- config_item "settings" ;;
  current' <- lift (dict_update current settings) ;;
  update (set_config_item "settings" current') ;;
  save_config None.

(** [ColorConfig.register_module] with defaults of any type (the
    annotations ask for [str]). *)
Definition register_module_any (module_name : string) (default_bg default_fg : json)
    : M World unit :=
  theme_colors <- lift (get module_themes module_name (dict [])) ;;
  theme_bg <- lift (get theme_colors "bg_color" default_bg) ;;
  theme_fg <- lift (get theme_colors "fg_color" default_fg) ;;
  colors <- read module_colors ;;
  present <- lift (contains module_name colors) ;;
  if present then ret tt
  else
    colors' <- lift (setitem colors module_name (color_pair theme_bg theme_fg)) ;;
    update (mutate_module_colors colors') ;;
    save_config None.

(** [ColorConfig.apply_colors_to_module]; the module object is returned as
    the call leaves it. *)
Definition apply_colors_to_module (m : gui_module) : M World gui_module :=
  match named m with
  | None => ret m
  | Some module_name =>
      colors <- get_module_colors module_name ;;
      has_bg <- lift (contains "bg_color" colors) ;;
      m <- (if has_bg then
              bg <- lift (getitem colors "bg_color") ;;
              ret (set_attribute "bg_color" bg m)
            else ret m) ;;
      has_fg <- lift (contains "fg_color" colors) ;;
      if has_fg then
        fg <- lift (getitem colors "fg_color") ;;
        ret (set_attribute "fg_color" fg m)
      else ret m
  end.

(** [get_color_config]: the first call builds the singleton; where the
    constructor raises there is none afterwards. *)
Definition get_color_config (config_path : option string) : M Process unit :=
  fun p =>
    match _color_config_instance p with
    | Some _ => (Ok tt, p)
    | None =>
        match __init__ config_path (files_on_disk p) with
        | (Ok tt, w) =>
            (Ok tt, {| _color_config_instance := Some (self w); files_on_disk := disk w |})
        | (Raise e, w) =>
            (Raise e, {| _color_config_instance := None; files_on_disk := disk w |})
        end
    end.

(** [App._register_modules_with_color_config] of [core/qt_core.py], on the
    list [self.modules]. *)
Definition _register_modules_with_color_config (modules : list gui_module) : M World unit :=
  for_in
    (fun m =>
       match named m with
       | Some module_name =>
           let default_bg := from_option id (JStr "#ffffff") (attributes m !! "bg_color") in
           let default_fg := from_option id (JStr "#000000") (attributes m !! "fg_color") in
           register_module_any module_name default_bg default_fg
       | None => ret tt
       end)
    modules.

(** The public operations that change the store, with [auto_save] left at
    its default [True]. *)
Inductive mutation : Type :=
  | SetModuleColor (module_name color_type color_value : string)
  | SetWindowColor (color_type color_value : string)
  | UpdateSettings (settings : gmap string json)
  | RegisterModule (module_name default_bg default_fg : string)
  | ResetToDefaults.

Definition run (mu : mutation) : M World unit :=
  match mu with
  | SetModuleColor module_name color_type color_value =>
      set_module_color module_name color_type color_value true
  | SetWindowColor color_type color_value =>
      set_window_color color_type color_value true
  | UpdateSettings settings => update_settings settings
  | RegisterModule module_name default_bg default_fg =>
      register_module module_name default_bg default_fg
  | ResetToDefaults => reset_to_defaults
  end.

(** *** The vocabulary of the properties *)

(** The codec reads [v] back as it wrote it. *)
Definition reads_back (v : json) : Prop := json_load (json_dump v) = Some v.

(** A restart would find the store as it is: the file of the store, read
    back, is the document in memory, and [self.module_colors] is what
    [_load_config] takes from that document. *)
Definition in_sync (w : World) : Prop :=
  (exists text,
     disk w !! config_path (self w) = Some text /\
     json_load text = Some (JObj (document (self w)))) /\
  module_colors (self w) = from_option id (dict []) (document (self w) !! "modules").

(** The path that [save_config(path)] writes to. *)
Definition save_target (path : option string) (c : ColorConfig) : string :=
  or_else path (config_path c).

End Methods.

(** [m] leaves the part [f] of the state as it is, whether it returns or
    raises. *)
Definition unchanged {S A B} (f : S -> B) (m : M S A) : Prop :=
  forall s, f (snd (m s)) = f s.

(** The entry of [self.config] under [k]. *)
Definition item (k : string) (w : World) : option json := config (self w) !! k.

(** [self.config] with the window pair updated. *)
Definition with_window (color_type color_value : string) (c : ColorConfig) : ColorConfig :=
  set_config_item "window"
    (JObj (<[color_type := JStr color_value]>
             (match document c !! "window" with
              | Some (JObj d) => d
              | _ => list_to_map [("bg_color", JStr "#00c8f9"); ("fg_color", JStr "#ffffff")]
              end)))
    c.

(** [self.config] with the settings merged. *)
Definition with_settings (settings : gmap string json) (c : ColorConfig) : ColorConfig :=
  set_config_item "settings"
    (JObj (settings ∪
             (match document c !! "settings" with
              | Some (JObj d) => d
              | _ => ∅
              end)))
    c.

(** The module object with the channel [k] of [entry], where it has one. *)
Definition overlay (k : string) (entry : gmap string json) (m : gui_module) : gui_module :=
  match entry !! k with
  | Some v => set_attribute k v m
  | None => m
  end.

(** The module object with the colours of [entry]. *)
Definition colored (entry : gmap string json) (m : gui_module) : gui_module :=
  overlay "fg_color" entry (overlay "bg_color" entry m).

Definition is_dict (v : json) : bool :=
  match v with JObj _ => true | _ => false end.

(** The keys of the document that a mutation may change. *)
Definition touches (mu : mutation) (k : string) : bool :=
  match mu with
  | SetModuleColor _ _ _ | RegisterModule _ _ _ => String.eqb k "modules"
  | SetWindowColor _ _ => String.eqb k "window" || String.eqb k "modules"
  | UpdateSettings _ => String.eqb k "settings" || String.eqb k "modules"
  | ResetToDefaults => String.eqb k "window" || String.eqb k "modules"
  end.

(** What [self.config] holds under [k] where that is a [dict], and
    [fallback] otherwise. *)
Definition dict_item (k : string) (fallback : gmap string json) (c : ColorConfig)
    : gmap string json :=
  match document c !! k with
  | Some (JObj d) => d
  | _ => fallback
  end.

(** [self.config] holds nothing under [k], or a [dict]. *)
Definition item_writable (k : string) (c : ColorConfig) : bool :=
  match document c !! k with
  | None | Some (JObj _) => true
  | Some _ => false
  end.

Definition default_window_pair : gmap string json :=
  list_to_map [("bg_color", JStr "#00c8f9"); ("fg_color", JStr "#ffffff")].

End StoreApi.

(* ===================================================================== *)
(** ** More vocabulary for the repository scan                            *)
(* ===================================================================== *)

Module ScanWording.
Import Py Git.

(** What a scan records of a repository besides its branch. *)
Definition place (r : repo) : string * string := (path r, name r).

(** What the search has found, the branches left out. *)
Definition places (a : found) : list (string * string) * gset string :=
  (place <$> repos a, found_paths a).

(** What a scan answers, the branches left out. *)
Definition answer_places (r : result (list repo)) : result (list (string * string)) :=
  match r with
  | Ok rs => Ok (place <$> rs)
  | Raise e => Raise e
  end.

(** Two pieces of a search do the same but for the branches they record. *)
Definition agree {A} (m1 m2 : M found A) : Prop :=
  forall a1 a2,
    places a1 = places a2 ->
    fst (m1 a1) = fst (m2 a2) /\ places (snd (m1 a1)) = places (snd (m2 a2)).


End ScanWording.

(* ===================================================================== *)
(** ** [core/qt_core.py]: the Apply button of the colour panel            *)
(* ===================================================================== *)

Module Panel.
Import Py Store StoreApi.
Open Scope py_scope.

Definition underscore : ascii := "_"%char.

(** [s.split("_")] *)
Fixpoint split (s : string) : list string :=
  match s with
  | EmptyString => [EmptyString]
  | String c rest =>
      if Ascii.eqb c underscore then EmptyString :: split rest
      else
        match split rest with
        | part :: parts => String c part :: parts
        | [] => [String c EmptyString]
        end
  end.

(** [l[:-1]] and [l[-1:]] *)
Definition but_last {A} (l : list A) : list A := take (length l - 1) l.
Definition last_only {A} (l : list A) : list A := drop (length l - 1) l.

(** The first three lines of the loop body of [_apply_colors]:
    [(module_name, color_attr)] for [key]. *)
Definition parse_key (key : string) : string * string :=
  let parts := split key in
  (String.concat "_" (but_last parts), String.concat "_" (last_only parts)).

(** What is left of [s] after the prefix [p]. *)
Fixpoint without_prefix (p s : string) : option string :=
  match p, s with
  | EmptyString, _ => Some s
  | String a p', String b s' => if Ascii.eqb a b then without_prefix p' s' else None
  | String _ _, EmptyString => None
  end.

(** [s.replace(old, new)] for [old] that is not empty: the occurrences are
    taken from the left and do not overlap. *)
Fixpoint replace_upto (fuel : nat) (old new s : string) : string :=
  match fuel, s with
  | O, _ => s
  | S _, EmptyString => EmptyString
  | S fuel', String c rest =>
      match without_prefix old s with
      | Some rest' => new +:+ replace_upto fuel' old new rest'
      | None => String c (replace_upto fuel' old new rest)
      end
  end.

Definition replace (old new s : string) : string :=
  replace_upto (String.length s) old new s.

(** The objects in [self.app.modules] are referred to by address: one
    object may be listed twice. *)
Definition address : Type := nat.

(** What [_apply_colors] works on: [self.app.color_config] with the
    files, [self.app.modules], the module objects, and
    [self.app.active_module]. *)
Record App : Type := {
  color_config : World;
  modules : list address;
  objects : address -> gui_module;
  active_module : option address
}.

(** A call of a method of [self.app.color_config]. *)
Definition on_color_config {A} (m : M World A) : M App A :=
  fun a =>
    let (r, w) := m (color_config a) in
    (r, {| color_config := w; modules := modules a; objects := objects a;
           active_module := active_module a |}).

(** [setattr(module, k, v)] for a [str] [v]: an attribute [name] set on the
    object hides what the class has. *)
Definition setattr (k v : string) (m : gui_module) : gui_module :=
  if String.eqb k "name" then
    {| module_name_attr := NameAttribute v; attributes := attributes m |}
  else set_attribute k (JStr v) m.

(** The object at [l] replaced. *)
Definition put_object (l : address) (m : gui_module) (a : App) : App :=
  {| color_config := color_config a; modules := modules a;
     objects := fun l' => if Nat.eqb l' l then m else objects a l';
     active_module := active_module a |}.

(** The body of the loop over [self.app.modules] in [_apply_colors].
    [App.__init__] sets [color_config], so that [hasattr] holds. *)
Definition apply_to_module `{Host} (module_name color_attr value : string) (l : address)
    : M App unit :=
  module <- gets (fun a => objects a l) ;;
  if bool_decide (resolved_name module = Some module_name) then
    modify (put_object l (setattr color_attr value module)) ;;
    on_color_config (set_module_color module_name color_attr value true)
  else ret tt.

(** The body of the loop over [self.color_vars.items()]. *)
Definition apply_color_var `{Host} (entry : string * string) : M App unit :=
  let key := fst entry in
  let value := snd entry in
  let module_name := fst (parse_key key) in
  let color_attr := snd (parse_key key) in
  if String.eqb module_name "window" then
    on_color_config (set_window_color (replace "window_" "" color_attr) value true)
  else
    listed <- gets modules ;;
    for_in (apply_to_module module_name color_attr value) listed.

(** [App._apply_colors_to_module], which does what
    [ColorConfig.apply_colors_to_module] does. *)
Definition _apply_colors_to_module `{Host} (l : address) : M App unit :=
  module <- gets (fun a => objects a l) ;;
  module' <- on_color_config (apply_colors_to_module module) ;;
  modify (put_object l module').

(** [ColorCustomizationPanel._apply_colors]; [color_vars] holds the keys
    with what the entries of the panel read, in the order of the [dict].
    Of [show_module], which ends it, the widget work is left out. *)
Definition _apply_colors `{Host} (color_vars : list (string * string)) : M App unit :=
  for_in apply_color_var color_vars ;;
  active <- gets active_module ;;
  match active with
  | Some l => _apply_colors_to_module l
  | None => ret tt
  end.

(** What [f"{module.name}"] gives. *)
Definition shown_name (m : gui_module) : string :=
  match module_name_attr m with
  | NoName => EmptyString
  | NameAttribute s => s
  | NameMethod _ shown => shown
  end.

(** The key under which [_create_color_entry] files an entry; [module] is
    [None] for a colour of the window. *)
Definition entry_key (module : option gui_module) (color_attr : string) : string :=
  match module with
  | None => "window_" +:+ color_attr
  | Some m => shown_name m +:+ "_" +:+ color_attr
  end.

(** The keys of [self.color_vars] after [_populate_modules]:
    [_create_window_section], then [_create_module_section] for every
    module with a name. *)
Definition color_var_keys (listed : list gui_module) : list string :=
  [entry_key None "window_bg"; entry_key None "window_fg"] ++
  flat_map
    (fun m =>
       match named m with
       | Some _ => [entry_key (Some m) "bg_color"; entry_key (Some m) "fg_color"]
       | None => []
       end)
    listed.

(** *** The vocabulary of the properties *)

(** An underscore occurs in [s]. *)
Fixpoint has_underscore (s : string) : bool :=
  match s with
  | EmptyString => false
  | String c rest => Ascii.eqb c underscore || has_underscore rest
  end.

(** The name of the module is a [str] without underscore, or there is
    none. *)
Definition plainly_named (m : gui_module) : bool :=
  match resolved_name m with
  | Some s => negb (has_underscore s)
  | None => true
  end.

(** What [get_module_color] answers in [a]. *)
Definition module_color (module_name color_type : string) (a : App) : result json :=
  fst (get_module_color module_name color_type (color_config a)).

(** What [get_window_colors().get(color_type)] answers. *)
Definition window_channel (color_type : string) (w : World) : result json :=
  match fst (get_window_colors w) with
  | Ok colors => get colors color_type JNull
  | Raise e => Raise e
  end.

Definition window_color (color_type : string) (a : App) : result json :=
  window_channel color_type (color_config a).

End Panel.

(* ===================================================================== *)
(** ** [modules/git_manager/git_manager.py]: the saved tasks              *)
(* ===================================================================== *)

Module Tasks.
Import Py Git.
Open Scope py_scope.

(** What the module takes from its host: [json.dump(v, f, indent=2)],
    [json.load], where [None] stands for [JSONDecodeError], and the path
    [CONFIG_FILE] below the home directory. *)
Class Host : Type := {
  json_dump : json -> string;
  json_load : string -> option json;
  CONFIG_FILE : string
}.

(** [self.tasks], which is whatever [json.load] gave, the text of the
    regular files, and the directories as the scan sees them. *)
Record Manager : Type := {
  tasks : json;
  disk : Store.files;
  directories : tree
}.

(** [self.tasks = v] *)
Definition set_tasks (v : json) (m : Manager) : Manager :=
  {| tasks := v; disk := disk m; directories := directories m |}.

(** [with open(p, 'r') as f: f.read()] *)
Definition read_file (p : string) : M Manager string :=
  fun m =>
    match disk m !! p with
    | Some text => (Ok text, m)
    | None => (Raise FileNotFoundError, m)
    end.

(** [with open(p, 'w') as f: f.write(text)] *)
Definition write_file (p text : string) : M Manager unit :=
  modify (fun m =>
    {| tasks := tasks m; disk := <[p := text]> (disk m); directories := directories m |}).

(** [os.path.exists(p)] for the paths that the dialog takes. *)
Definition exists_ (p : string) : M Manager bool :=
  gets (fun m => bool_decide (is_Some (directories m !! p))).

(** [except (json.JSONDecodeError, IOError)] *)
Definition unreadable (e : exn) : bool :=
  match e with
  | JSONDecodeError => true
  | _ => is_OSError e
  end.

(** [l.append(v)]: only a [list] has the method. *)
Definition append (l v : json) : result json :=
  match l with
  | JArr items => Ok (JArr (items ++ [v]))
  | _ => Raise AttributeError
  end.

(** An element of [git_repos] as the scan builds it. *)
Definition repo_json (r : repo) : json :=
  Store.dict [("path", JStr (path r)); ("name", JStr (name r)); ("branch", JStr (branch r))].

(** The [dict] [task_data] of [add_task]. *)
Definition task_data (name root_path script_path : string) (git_repos : list repo) : json :=
  Store.dict
    [("name", JStr name);
     ("root_path", JStr root_path);
     ("script_path", if is_empty script_path then JNull else JStr script_path);
     ("git_repos", JArr (repo_json <$> git_repos))].

(** How [add_task] ends where it does not raise: with a warning box, or
    with the task added and the dialog closed. *)
Inductive answer : Type :=
  | Warned (title message : string)
  | Added.

Definition validation_error (message : string) : answer :=
  Warned "Validation Error" message.

Section Methods.
Context `{Host} (run : runner).

(** [GitManagerModule._load_tasks] *)
Definition _load_tasks : M Manager unit :=
  present <- gets (fun m => bool_decide (is_Some (disk m !! CONFIG_FILE))) ;;
  if present then
    try_except
      (text <- read_file CONFIG_FILE ;;
       match json_load text with
       | Some v => modify (set_tasks v)
       | None => raise JSONDecodeError
       end)
      unreadable
      (modify (set_tasks (JArr [])))
  else ret tt.

(** [GitManagerModule._save_tasks]; the model has no write that fails, so
    that the [except IOError] clause has nothing to catch. *)
Definition _save_tasks : M Manager unit :=
  try_except
    (text <- gets (fun m => json_dump (tasks m)) ;;
     write_file CONFIG_FILE text)
    is_OSError
    (ret tt).

(** The local function [add_task] of [_show_add_task_dialog], from what
    the three entries hold.  The widget work after the save is left out. *)
Definition add_task (name_entry root_entry script_entry : string) : M Manager answer :=
  let name := strip name_entry in
  let root_path := strip root_entry in
  let script_path := strip script_entry in
  if is_empty name then ret (validation_error "Please enter a name for the task.")
  else if is_empty root_path then ret (validation_error "Please select a root path.")
  else
    root_exists <- exists_ root_path ;;
    if negb root_exists then ret (validation_error "Root path does not exist.")
    else
      script_exists <- exists_ script_path ;;
      if negb (is_empty script_path) && negb script_exists then
        ret (validation_error "Script path does not exist.")
      else
        t <- gets directories ;;
        git_repos <- lift (_find_all_git_repositories t run root_path) ;;
        match git_repos with
        | [] =>
            ret (Warned "No Git Repository"
                   ("No git repositories found in:" +:+ String (ascii_of_nat 10) root_path))
        | _ :: _ =>
            current <- gets tasks ;;
            current' <- lift (append current (task_data name root_path script_path git_repos)) ;;
            modify (set_tasks current') ;;
            _save_tasks ;;
            ret Added
        end.

(** *** The vocabulary of the properties *)

(** The codec reads [v] back as it wrote it. *)
Definition loads_back (v : json) : Prop := json_load (json_dump v) = Some v.

(** What the dialog accepts of the three entries before it scans. *)
Definition valid_entries (m : Manager) (name_entry root_entry script_entry : string) : bool :=
  negb (is_empty (strip name_entry)) &&
  negb (is_empty (strip root_entry)) &&
  bool_decide (is_Some (directories m !! strip root_entry)) &&
  (is_empty (strip script_entry) ||
   bool_decide (is_Some (directories m !! strip script_entry))).

End Methods.
End Tasks.

(* ===================================================================== *)
(** ** More fixtures                                                      *)
(* ===================================================================== *)

Module Samples.
Import Py Store Git Wording Fixtures StoreApi Panel.

(** The store right after its first start on [/tmp/ui/colors.json], with
    the file that start wrote. *)
Definition fresh_world : World :=
  {| self := default_store "/tmp/ui/colors.json";
     Store.disk :=
       {["/tmp/ui/colors.json" := Codec.dump 0 (JObj default_config)]} |}.

(** A file that holds a JSON array. *)
Definition array_file : files := {["/tmp/ui/colors.json" := "[]"]}.

(** Two module objects: one that the themed store knows, one that it does
    not, with a colour of its own. *)
Definition log_module : gui_module :=
  {| module_name_attr := NameAttribute "Log"; attributes := ∅ |}.

Definition editor_module : gui_module :=
  {| module_name_attr := NameMethod "Editor" "<bound method Editor.name>";
     attributes := {["bg_color" := JStr "#202020"]} |}.

(** An application with these two modules on the themed store. *)
Definition two_modules : App :=
  {| color_config := themed_world;
     modules := [0; 1]%nat;
     objects := fun l => if Nat.eqb l 0 then log_module else editor_module;
     active_module := Some 1%nat |}.

(** What the panel holds for it after two edits. *)
Definition panel_entries : list (string * string) :=
  [("window_window_bg", "#222222");
   ("window_window_fg", "#fefefe");
   ("Log_bg_color", "#333333");
   ("Log_fg_color", "#00ff00")].

(** Keys that no panel makes, which reach the two setters. *)
Definition direct_entries : list (string * string) :=
  [("window_bg", "#222222"); ("Log_color", "#333333")].

(** [json.dump(v, f, indent=2)] from the reference codec, which indents
    by four: every other blank at the start of a line is dropped. *)
Fixpoint narrow (at_start keep : bool) (s : string) : string :=
  match s with
  | EmptyString => EmptyString
  | String c rest =>
      if Ascii.eqb c Codec.newline then String c (narrow true false rest)
      else if at_start && Ascii.eqb c " " then
        if keep then String c (narrow true false rest) else narrow true true rest
      else String c (narrow false false rest)
  end.

(** A host of the Git manager with the reference codec. *)
Definition tasks_host : Tasks.Host :=
  {| Tasks.json_dump := fun v => narrow false false (Codec.dump 0 v);
     Tasks.json_load := Codec.load;
     Tasks.CONFIG_FILE := "/home/u/.config/qt_git_manager/tasks.json" |}.

Definition app_repo : repo := {| path := "/w/app"; name := "app"; branch := "main" |}.

(** A manager without tasks in [/w], and one with a task. *)
Definition no_tasks : Tasks.Manager :=
  {| Tasks.tasks := JArr []; Tasks.disk := ∅; Tasks.directories := small_tree |}.

Definition one_task : Tasks.Manager :=
  {| Tasks.tasks := JArr [Tasks.task_data "Work" "/w" "" [app_repo]];
     Tasks.disk := ∅;
     Tasks.directories := small_tree |}.

(** A manager in [/r], where [notes.txt] is a regular file. *)
Definition notes_manager : Tasks.Manager :=
  {| Tasks.tasks := JArr []; Tasks.disk := ∅; Tasks.directories := deep_tree |}.

End Samples.

(* ===================================================================== *)
(** ** Properties of the configuration store                              *)
(* ===================================================================== *)

Section PathProperties.
Import Py.

Lemma upto_last_sep_empty p :
  is_empty (upto_last_sep p) = negb (str_contains "/" p).
Proof.
  induction p as [|c rest IH]; [reflexivity|].
  cbn [upto_last_sep str_contains String.prefix].
  destruct (Ascii.ascii_dec "/" c) as [<- | Hc].
  - assert (Hprefix : String.prefix "" rest = true) by (destruct rest; reflexivity).
    rewrite Hprefix. simpl.
    destruct (is_empty (upto_last_sep rest)); reflexivity.
  - assert (Hsep : is_sep c = false).
    { unfold is_sep, sep. apply Ascii.eqb_neq. congruence. }
    rewrite Hsep. simpl. rewrite <- IH.
    destruct (is_empty (upto_last_sep rest)); reflexivity.
Qed.

Lemma rstrip_sep_keeps s :
  all_sep s = false -> is_empty (rstrip_sep s) = false.
Proof.
  induction s as [|c rest IH]; [discriminate|].
  cbn [all_sep rstrip_sep]. intros Hall.
  destruct (is_sep c); simpl in *.
  - rewrite (IH Hall). reflexivity.
  - rewrite andb_false_r. reflexivity.
Qed.

(** [os.path.dirname(p)] is empty exactly when [p] has no separator. *)
Lemma dirname_empty p :
  is_empty (dirname p) = negb (str_contains "/" p).
Proof.
  unfold dirname. rewrite <- upto_last_sep_empty.
  destruct (is_empty (upto_last_sep p)) eqn:Hhead; simpl; [exact Hhead|].
  destruct (all_sep (upto_last_sep p)) eqn:Hall; simpl; [exact Hhead|].
  apply rstrip_sep_keeps, Hall.
Qed.

End PathProperties.

Section StoreProperties.
Import Py Store Wording.
Context `{Host}.

Lemma document_share_modules c :
  document (share_modules c) = saved_document c.
Proof.
  unfold document, share_modules, saved_document; simpl.
  apply insert_insert_eq.
Qed.

Lemma saved_document_of_document c :
  <["modules" := module_colors c]> (document c) = saved_document c.
Proof.
  unfold document, saved_document.
  destruct (modules_shared c); [apply insert_insert_eq | reflexivity].
Qed.

(** [save_config()] on a path with a directory part: the document goes to
    that path and [self.config["modules"]] now is [self.module_colors]. *)
Lemma save_config_ok w :
  is_empty (dirname (config_path (self w))) = false ->
  save_config None w =
    (Ok tt,
     {| self := share_modules (self w);
        disk := <[config_path (self w) := json_dump (JObj (saved_document (self w)))]> (disk w) |}).
Proof.
  intros Hdir.
  unfold save_config, bind, read, makedirs, update, write_file; simpl.
  rewrite Hdir; simpl.
  rewrite document_share_modules. reflexivity.
Qed.

(** [save_config()] on a bare file name: [os.makedirs('')] raises before
    anything is written. *)
Lemma save_config_bare w :
  is_empty (dirname (config_path (self w))) = true ->
  save_config None w = (Raise FileNotFoundError, w).
Proof.
  intros Hdir.
  unfold save_config, bind, read, makedirs; simpl.
  rewrite Hdir. reflexivity.
Qed.

Lemma default_config_modules :
  <["modules" := dict []]> default_config = default_config.
Proof. apply insert_id. reflexivity. Qed.

(** [_create_default_config] where the path has a directory part. *)
Lemma create_default_config_ok w :
  is_empty (dirname (config_path (self w))) = false ->
  _create_default_config w =
    (Ok tt,
     {| self := default_store (config_path (self w));
        disk := <[config_path (self w) := json_dump (JObj default_config)]> (disk w) |}).
Proof.
  intros Hdir.
  unfold _create_default_config, bind, update; simpl.
  rewrite save_config_ok by exact Hdir.
  unfold share_modules, saved_document, default_store; simpl.
  unfold document, rebind_config; simpl.
  rewrite default_config_modules. reflexivity.
Qed.

Lemma load_config_unfold w : _load_config w = load_config_cases w.
Proof.
  unfold _load_config, load_config_cases, bind, read, gets, exists_, try_except,
    read_file, load_json, update, modify, ret, raise; simpl.
  destruct (disk w !! config_path (self w)) as [text|] eqn:Hfile; simpl;
    [|reflexivity].
  rewrite Hfile.
  destruct (json_load text) as [[]|]; reflexivity.
Qed.

(** Loading a missing or unparsable file synthesizes the default document
    and writes it, where the path has a directory part. *)
Lemma load_config_default w :
  unreadable (disk w) (config_path (self w)) ->
  is_empty (dirname (config_path (self w))) = false ->
  _load_config w =
    (Ok tt,
     {| self := default_store (config_path (self w));
        disk := <[config_path (self w) := json_dump (JObj default_config)]> (disk w) |}).
Proof.
  intros Hfile Hdir. rewrite load_config_unfold. unfold load_config_cases.
  destruct Hfile as [-> | (text & -> & ->)];
    apply create_default_config_ok, Hdir.
Qed.

(** The same on a bare file name: the constructor raises and nothing is
    written. *)
Lemma load_config_bare w :
  unreadable (disk w) (config_path (self w)) ->
  is_empty (dirname (config_path (self w))) = true ->
  fst (_load_config w) = Raise FileNotFoundError /\
  disk (snd (_load_config w)) = disk w.
Proof.
  intros Hfile Hdir.
  assert (Hcreate : fst (_create_default_config w) = Raise FileNotFoundError /\
                    disk (snd (_create_default_config w)) = disk w).
  { unfold _create_default_config, bind, update; simpl.
    rewrite save_config_bare by exact Hdir. simpl. split; reflexivity. }
  rewrite load_config_unfold. unfold load_config_cases.
  destruct Hfile as [-> | (text & -> & ->)]; exact Hcreate.
Qed.

(** C1, at the input where the code departs from it: opening a store on the
    bare file name [colors.json] in a directory without that file.  The
    specification asks for the default document to be written;
    [os.makedirs(os.path.dirname("colors.json"))] is [os.makedirs("")], which
    raises [FileNotFoundError]: the constructor fails and the disk stays
    empty. *)
Theorem load_missing_bare_filename_raises :
  fst (__init__ (Some "colors.json") ∅) = Raise FileNotFoundError /\
  disk (snd (__init__ (Some "colors.json") ∅)) = ∅.
Proof.
  unfold __init__.
  apply load_config_bare; simpl.
  - left. apply lookup_empty.
  - reflexivity.
Qed.

(** The constructor on a missing or unparsable file whose path has a
    directory part. *)
Lemma init_default (path : option string) (d : files) :
  let p := or_else path DEFAULT_CONFIG_PATH in
  unreadable d p ->
  is_empty (dirname p) = false ->
  __init__ path d =
    (Ok tt,
     {| self := default_store p;
        disk := <[p := json_dump (JObj default_config)]> d |}).
Proof.
  intros p Hfile Hdir. unfold __init__.
  apply (load_config_default
           {| self := {| config_path := p; config := ∅; module_colors := dict [];
                         modules_shared := false |};
              disk := d |}); assumption.
Qed.

(** [save_config()] leaves [self.module_colors] and the path as they are,
    whether it raises or not. *)
Lemma save_config_cases w :
  (is_empty (dirname (config_path (self w))) = false /\
   save_config None w =
     (Ok tt,
      {| self := share_modules (self w);
         disk := <[config_path (self w) := json_dump (JObj (saved_document (self w)))]> (disk w) |}))
  \/
  (is_empty (dirname (config_path (self w))) = true /\
   save_config None w = (Raise FileNotFoundError, w)).
Proof.
  destruct (is_empty (dirname (config_path (self w)))) eqn:Hdir.
  - right. split; [reflexivity | apply save_config_bare, Hdir].
  - left. split; [reflexivity | apply save_config_ok, Hdir].
Qed.

Lemma save_config_module_colors w :
  module_colors (self (snd (save_config None w))) = module_colors (self w).
Proof.
  destruct (save_config_cases w) as [[_ ->] | [_ ->]]; reflexivity.
Qed.

Lemma save_config_config_path w :
  config_path (self (snd (save_config None w))) = config_path (self w).
Proof.
  destruct (save_config_cases w) as [[_ ->] | [_ ->]]; reflexivity.
Qed.

(** The result of [get_module_color] is read off [self.module_colors]. *)
Lemma get_module_color_dict w module_name color_type d :
  module_colors (self w) = JObj d ->
  get_module_color module_name color_type w =
    (get (from_option id (dict []) (d !! module_name)) color_type JNull, w).
Proof.
  intros Hd. unfold get_module_color, bind, read, lift; simpl.
  rewrite Hd; simpl. reflexivity.
Qed.

(** What [set_module_color] does to [self.module_colors]. *)
Lemma set_module_color_colors w module_name color_type color_value auto_save d :
  module_colors (self w) = JObj d ->
  entry_writable module_name (JObj d) = true ->
  module_colors (self (snd (set_module_color module_name color_type color_value auto_save w))) =
    JObj (<[module_name := JObj (<[color_type := JStr color_value]> (entry_of module_name d))]> d).
Proof.
  intros Hd Hentry.
  unfold set_module_color, bind, read, lift, update, ret; simpl.
  rewrite Hd; simpl.
  unfold entry_of. simpl in Hentry.
  destruct (d !! module_name) as [entry|] eqn:Hlookup.
  - rewrite bool_decide_eq_true_2 by eauto. simpl.
    rewrite Hd; simpl. rewrite Hlookup.
    destruct entry; try discriminate Hentry. simpl.
    destruct auto_save; [rewrite save_config_module_colors|]; reflexivity.
  - rewrite bool_decide_eq_false_2 by (intros [? ?]; discriminate). simpl.
    rewrite lookup_insert_eq. simpl.
    rewrite insert_insert_eq.
    destruct auto_save; [rewrite save_config_module_colors|]; reflexivity.
Qed.

(** C4: after [set_module_color(name, channel, value, auto_save)],
    [get_module_color(name, channel)] returns [value], for every module name,
    every channel (so for ['bg_color'] and ['fg_color']), every value and
    either choice of [auto_save], whether the save succeeded or raised.  The
    store is as its annotations describe it: [module_colors] is a [dict] and
    its entry for the name, if any, is a [dict]. *)
Theorem set_then_get_module_color w module_name color_type color_value auto_save :
  entry_writable module_name (module_colors (self w)) = true ->
  let w' := snd (set_module_color module_name color_type color_value auto_save w) in
  get_module_color module_name color_type w' = (Ok (JStr color_value), w').
Proof.
  intros Hentry w'.
  destruct (module_colors (self w)) as [| | | | | |d] eqn:Hd; try discriminate Hentry.
  pose proof (set_module_color_colors w module_name color_type color_value auto_save d Hd Hentry)
    as Hcolors.
  fold w' in Hcolors.
  rewrite (get_module_color_dict _ _ _ _ Hcolors).
  rewrite lookup_insert_eq; simpl.
  rewrite lookup_insert_eq; simpl. reflexivity.
Qed.

(** The lookups in [module_themes] give the pair of [registered_pair]. *)
Lemma theme_colors_spec module_name default_bg default_fg :
  exists theme_colors,
    get module_themes module_name (dict []) = Ok (JObj theme_colors) /\
    color_pair (from_option id (JStr default_bg) (theme_colors !! "bg_color"))
               (from_option id (JStr default_fg) (theme_colors !! "fg_color")) =
    registered_pair module_name default_bg default_fg.
Proof.
  unfold registered_pair, builtin_theme.
  destruct (String.eqb_spec module_name "Dashboard") as [-> | Hdashboard].
  { eexists; split; reflexivity. }
  destruct (String.eqb_spec module_name "System Status") as [-> | Hstatus].
  { eexists; split; reflexivity. }
  destruct (String.eqb_spec module_name "Git Manager") as [-> | Hgit].
  { eexists; split; reflexivity. }
  destruct (String.eqb_spec module_name "Log") as [-> | Hlog].
  { eexists; split; reflexivity. }
  exists ∅. split; [|reflexivity].
  unfold module_themes, dict, get. cbn [list_to_map foldr uncurry fst snd].
  rewrite !lookup_insert_ne by congruence.
  rewrite lookup_empty. reflexivity.
Qed.

(** [register_module] on a name that has no entry yet. *)
Lemma register_module_absent w module_name default_bg default_fg d :
  module_colors (self w) = JObj d ->
  d !! module_name = None ->
  module_colors (self (snd (register_module module_name default_bg default_fg w))) =
    JObj (<[module_name := registered_pair module_name default_bg default_fg]> d).
Proof.
  intros Hd Hfresh.
  destruct (theme_colors_spec module_name default_bg default_fg) as (tc & Htc & <-).
  unfold register_module, bind, lift, read, update.
  rewrite Htc. simpl. rewrite Hd. simpl.
  rewrite bool_decide_eq_false_2 by (rewrite Hfresh; intros [? ?]; discriminate).
  rewrite save_config_module_colors. reflexivity.
Qed.

(** [register_module] on a name that has an entry: nothing happens. *)
Lemma register_module_present w module_name default_bg default_fg d :
  module_colors (self w) = JObj d ->
  is_Some (d !! module_name) ->
  register_module module_name default_bg default_fg w = (Ok tt, w).
Proof.
  intros Hd Hpresent.
  destruct (theme_colors_spec module_name default_bg default_fg) as (tc & Htc & _).
  unfold register_module, bind, lift, read, ret.
  rewrite Htc. simpl. rewrite Hd. simpl.
  rewrite bool_decide_eq_true_2 by exact Hpresent. reflexivity.
Qed.

(** C3: a second [register_module] for the same name, whatever defaults it
    brings, returns normally and changes neither the store nor the files;
    the entry of the name is the one the first call left: the pair it set
    where the name was new, the earlier entry otherwise.  [module_colors] is
    a [dict], so it holds one entry per name. *)
Theorem register_module_twice w module_name bg1 fg1 bg2 fg2 d :
  module_colors (self w) = JObj d ->
  let w1 := snd (register_module module_name bg1 fg1 w) in
  register_module module_name bg2 fg2 w1 = (Ok tt, w1) /\
  module_colors (self w1) =
    JObj (match d !! module_name with
          | Some _ => d
          | None => <[module_name := registered_pair module_name bg1 fg1]> d
          end).
Proof.
  intros Hd w1.
  destruct (d !! module_name) as [entry|] eqn:Hlookup.
  - assert (Hsame : w1 = w).
    { unfold w1. rewrite (register_module_present w _ _ _ d) by eauto. reflexivity. }
    rewrite Hsame. split; [|exact Hd].
    apply (register_module_present w _ _ _ d); eauto.
  - pose proof (register_module_absent w module_name bg1 fg1 d Hd Hlookup) as Hcolors.
    fold w1 in Hcolors. split; [|exact Hcolors].
    apply (register_module_present w1 _ _ _ _ Hcolors).
    rewrite lookup_insert_eq. eauto.
Qed.

Lemma registered_pair_unknown module_name default_bg default_fg :
  module_name ∉ known_modules ->
  registered_pair module_name default_bg default_fg =
    color_pair (JStr default_bg) (JStr default_fg).
Proof.
  unfold known_modules, registered_pair, builtin_theme. intros Hunknown.
  apply not_elem_of_cons in Hunknown as [Hdashboard Hunknown].
  apply not_elem_of_cons in Hunknown as [Hstatus Hunknown].
  apply not_elem_of_cons in Hunknown as [Hgit Hunknown].
  apply not_elem_of_cons in Hunknown as [Hlog _].
  apply String.eqb_neq in Hdashboard, Hstatus, Hgit, Hlog.
  rewrite Hdashboard, Hstatus, Hgit, Hlog. reflexivity.
Qed.

(** C8: registering a name that has no entry inserts, for ["Dashboard"],
    ["System Status"], ["Git Manager"] and ["Log"], the theme pair of the
    built-in table whatever defaults the caller passes, and for every other
    name the caller's defaults; the other entries stay as they are. *)
Theorem register_module_inserts_theme w module_name default_bg default_fg d :
  module_colors (self w) = JObj d ->
  d !! module_name = None ->
  let inserts pair :=
    module_colors (self (snd (register_module module_name default_bg default_fg w))) =
      JObj (<[module_name := pair]> d) in
  (module_name = "Dashboard" -> inserts (color_pair (JStr "#ffffff") (JStr "#2c3e50"))) /\
  (module_name = "System Status" -> inserts (color_pair (JStr "#1a1a2e") (JStr "#00d4ff"))) /\
  (module_name = "Git Manager" -> inserts (color_pair (JStr "#0d1117") (JStr "#58a6ff"))) /\
  (module_name = "Log" -> inserts (color_pair (JStr "#000000") (JStr "#00ff00"))) /\
  (module_name ∉ known_modules -> inserts (color_pair (JStr default_bg) (JStr default_fg))).
Proof.
  intros Hd Hfresh inserts. unfold inserts.
  rewrite (register_module_absent w module_name default_bg default_fg d Hd Hfresh).
  repeat split; try (intros ->; reflexivity).
  intros Hunknown. rewrite registered_pair_unknown by exact Hunknown. reflexivity.
Qed.

(** The store that [reset_to_defaults] has built when it calls
    [save_config]. *)
Lemma reset_to_defaults_cases w :
  let c := set_config_item "window" default_window
             (set_config_modules (dict []) (rebind_module_colors (dict []) (self w))) in
  (is_empty (dirname (config_path (self w))) = false /\
   reset_to_defaults w =
     (Ok tt,
      {| self := share_modules c;
         disk := <[config_path (self w) := json_dump (JObj (saved_document c))]> (disk w) |}))
  \/
  (is_empty (dirname (config_path (self w))) = true /\
   reset_to_defaults w = (Raise FileNotFoundError, {| self := c; disk := disk w |})).
Proof.
  intros c. unfold reset_to_defaults, bind, update; simpl. fold c.
  destruct (save_config_cases {| self := c; disk := disk w |}) as [[Hdir ->] | [Hdir ->]];
    [left | right]; (split; [exact Hdir | reflexivity]).
Qed.

(** In memory, [reset_to_defaults] empties the module map and restores the
    default window pair, whether the save succeeds or raises. *)
Lemma reset_to_defaults_memory w :
  let w' := snd (reset_to_defaults w) in
  module_colors (self w') = dict [] /\
  document (self w') !! "modules" = Some (dict []) /\
  document (self w') !! "window" = Some default_window.
Proof.
  destruct (reset_to_defaults_cases w) as [[_ Hreset] | [_ Hreset]];
    simpl; rewrite Hreset; simpl.
  - rewrite document_share_modules. unfold saved_document; simpl.
    repeat split; try reflexivity.
    + apply lookup_insert_eq.
    + rewrite lookup_insert_ne by discriminate. apply lookup_insert_eq.
  - unfold document; simpl.
    repeat split; try reflexivity.
    + rewrite lookup_insert_ne by discriminate. apply lookup_insert_eq.
    + apply lookup_insert_eq.
Qed.

(** The same through the accessors. *)
Lemma reset_to_defaults_accessors w :
  let w' := snd (reset_to_defaults w) in
  get_window_colors w' = (Ok default_window, w') /\
  get_applied_colors w' = (Ok (dict []), w') /\
  forall module_name color_type,
    get_module_color module_name color_type w' = (Ok JNull, w').
Proof.
  intros w'. destruct (reset_to_defaults_memory w) as (Hcolors & Hmodules & Hwindow).
  fold w' in Hcolors, Hmodules, Hwindow.
  unfold get_window_colors, get_applied_colors, bind, read, gets, lift.
  rewrite Hwindow, Hmodules. simpl. repeat split.
  intros module_name color_type.
  rewrite (get_module_color_dict w' module_name color_type _ Hcolors).
  simpl. rewrite lookup_empty. reflexivity.
Qed.

(** Where the path has a directory part, [reset_to_defaults] writes the
    document it has built. *)
Lemma reset_to_defaults_persists w :
  is_empty (dirname (config_path (self w))) = false ->
  let w' := snd (reset_to_defaults w) in
  fst (reset_to_defaults w) = Ok tt /\
  disk w' !! config_path (self w) = Some (json_dump (JObj (document (self w')))).
Proof.
  intros Hdir.
  destruct (reset_to_defaults_cases w) as [[_ Hreset] | [Hbare _]];
    [|congruence].
  simpl. rewrite Hreset; simpl. split; [reflexivity|].
  rewrite document_share_modules. apply lookup_insert_eq.
Qed.

(** C5, at the input where the code departs from it: [reset_to_defaults] on
    the store opened as [ColorConfig("colors.json")].  The module map and the
    window pair are reset in memory, but [save_config] raises
    [FileNotFoundError] in [os.makedirs("")] and the file keeps its old
    text. *)
Theorem reset_bare_filename_not_persisted :
  let w' := snd (reset_to_defaults Fixtures.bare_world) in
  fst (reset_to_defaults Fixtures.bare_world) = Raise FileNotFoundError /\
  disk w' = disk Fixtures.bare_world /\
  disk Fixtures.bare_world !! "colors.json" = Some "{}" /\
  module_colors (self w') = dict [] /\
  document (self w') !! "window" = Some default_window.
Proof.
  intros w'.
  destruct (reset_to_defaults_memory Fixtures.bare_world) as (Hcolors & _ & Hwindow).
  fold w' in Hcolors, Hwindow.
  destruct (reset_to_defaults_cases Fixtures.bare_world) as [[Hdir _] | [_ Hreset]].
  - discriminate Hdir.
  - unfold w'. rewrite Hreset in *. repeat split; assumption || reflexivity.
Qed.

(** [reset_to_defaults] leaves every key of the document other than
    ["modules"] and ["window"] as it was. *)
Lemma reset_to_defaults_frame w k :
  k <> "modules" -> k <> "window" ->
  document (self (snd (reset_to_defaults w))) !! k = document (self w) !! k.
Proof.
  intros Hmodules Hwindow.
  destruct (reset_to_defaults_cases w) as [[_ Hreset] | [_ Hreset]];
    rewrite Hreset; simpl.
  - rewrite document_share_modules. unfold saved_document; simpl.
    rewrite !lookup_insert_ne by congruence. reflexivity.
  - unfold document at 1; simpl.
    rewrite !lookup_insert_ne by congruence. reflexivity.
Qed.

(** C9: [reset_to_defaults] leaves the settings, the version and the
    description of the document as they were (and the path of the store),
    whether the save succeeds or raises. *)
Theorem reset_to_defaults_keeps_rest w :
  let w' := snd (reset_to_defaults w) in
  document (self w') !! "settings" = document (self w) !! "settings" /\
  document (self w') !! "version" = document (self w) !! "version" /\
  document (self w') !! "description" = document (self w) !! "description" /\
  config_path (self w') = config_path (self w).
Proof.
  intros w'. unfold w'.
  repeat split; try (apply reset_to_defaults_frame; discriminate).
  destruct (reset_to_defaults_cases w) as [[_ Hreset] | [_ Hreset]];
    rewrite Hreset; reflexivity.
Qed.

(** What [_load_config] builds from a file that holds a [dict]. *)
Lemma load_config_dict w text d :
  disk w !! config_path (self w) = Some text ->
  json_load text = Some (JObj d) ->
  _load_config w =
    (Ok tt,
     {| self :=
          {| config_path := config_path (self w);
             config := d;
             module_colors := from_option id (dict []) (d !! "modules");
             modules_shared := bool_decide (is_Some (d !! "modules")) |};
        disk := disk w |}).
Proof.
  intros Hfile Hparse. rewrite load_config_unfold. unfold load_config_cases.
  rewrite Hfile, Hparse. reflexivity.
Qed.


(** A store opened afterwards on the same path holds the saved document. *)
Lemma reopen_after_save w :
  is_empty (dirname (config_path (self w))) = false ->
  json_load (json_dump (JObj (saved_document (self w)))) = Some (JObj (saved_document (self w))) ->
  let reopened := __init__ (Some (config_path (self w))) (disk (snd (save_config None w))) in
  fst reopened = Ok tt /\
  document (self (snd reopened)) = saved_document (self w) /\
  module_colors (self (snd reopened)) = module_colors (self w).
Proof.
  intros Hdir Hcodec reopened. unfold reopened, __init__.
  assert (Hpath : or_else (Some (config_path (self w))) DEFAULT_CONFIG_PATH = config_path (self w)).
  { destruct (config_path (self w)); [discriminate Hdir | reflexivity]. }
  rewrite Hpath.
  rewrite (save_config_ok w Hdir). simpl.
  erewrite load_config_dict;
    [| simpl; apply lookup_insert_eq | simpl; exact Hcodec].
  simpl. unfold document, saved_document; simpl.
  rewrite !lookup_insert_eq; simpl.
  rewrite insert_insert_eq.
  repeat split; reflexivity.
Qed.

End StoreProperties.

(** *** The store on concrete files *)

Section StoreInstances.
Import Py Store Wording Fixtures.

(** The fixture [bare_world] is what [ColorConfig("colors.json")] builds in
    a directory whose [colors.json] holds the empty document. *)
Example bare_world_reachable :
  @__init__ reference_host (Some "colors.json") (disk bare_world) = (Ok tt, bare_world).
Proof. vm_compute. reflexivity. Qed.

(** Opening a store without a path, on an empty disk, writes the default
    document to [/opt/app/config/colors.json]. *)
Example init_default_reference :
  fst (@__init__ reference_host None ∅) = Ok tt /\
  option_map Codec.load (disk (snd (@__init__ reference_host None ∅)) !! "/opt/app/config/colors.json") =
    Some (Some (JObj default_config)).
Proof. vm_compute. split; reflexivity. Qed.

(** A text that holds a JSON array makes the constructor fail. *)
Example init_array_reference :
  fst (@__init__ reference_host (Some "/tmp/ui/colors.json") {["/tmp/ui/colors.json" := "[]"]}) =
    Raise AttributeError.
Proof. vm_compute. reflexivity. Qed.

(** A text that is not JSON is replaced by the default document. *)
Example init_garbage_reference :
  @__init__ reference_host (Some "/tmp/ui/colors.json") {["/tmp/ui/colors.json" := "bg=#fff"]} =
    (Ok tt,
     {| self := default_store "/tmp/ui/colors.json";
        disk := {["/tmp/ui/colors.json" := Codec.dump 0 (JObj default_config)]} |}).
Proof.
  rewrite (@init_default reference_host).
  - simpl. rewrite insert_singleton_eq. reflexivity.
  - right. eexists. split; [reflexivity | vm_compute; reflexivity].
  - reflexivity.
Qed.

Lemma set_then_get_module_color_witness :
  entry_writable "Log" (module_colors (self themed_world)) = true /\
  let w' := snd (@set_module_color reference_host "Log" "bg_color" "#123456" true themed_world) in
  get_module_color "Log" "bg_color" w' = (Ok (JStr "#123456"), w').
Proof.
  split; [reflexivity|].
  apply (@set_then_get_module_color reference_host themed_world "Log" "bg_color" "#123456" true).
  reflexivity.
Defined.

Lemma register_module_twice_witness :
  module_colors (self themed_world) = JObj themed_colors /\
  let w1 := snd (@register_module reference_host "Editor" "#111111" "#eeeeee" themed_world) in
  @register_module reference_host "Editor" "#222222" "#dddddd" w1 = (Ok tt, w1) /\
  module_colors (self w1) =
    JObj (match themed_colors !! "Editor" with
          | Some _ => themed_colors
          | None => <["Editor" := registered_pair "Editor" "#111111" "#eeeeee"]> themed_colors
          end).
Proof.
  split; [reflexivity|].
  apply (@register_module_twice reference_host themed_world "Editor"
           "#111111" "#eeeeee" "#222222" "#dddddd" themed_colors).
  reflexivity.
Defined.

Lemma register_module_inserts_theme_witness :
  module_colors (self themed_world) = JObj themed_colors /\
  themed_colors !! "Dashboard" = None /\
  module_colors (self (snd (@register_module reference_host "Dashboard" "#abcdef" "#fedcba" themed_world))) =
    JObj (<["Dashboard" := color_pair (JStr "#ffffff") (JStr "#2c3e50")]> themed_colors).
Proof.
  split; [reflexivity|]. split; [reflexivity|].
  apply (@register_module_inserts_theme reference_host themed_world
           "Dashboard" "#abcdef" "#fedcba" themed_colors);
    reflexivity.
Defined.

Lemma register_module_inserts_defaults_instance :
  module_colors (self (snd (@register_module reference_host "Editor" "#abcdef" "#fedcba" themed_world))) =
    JObj (<["Editor" := color_pair (JStr "#abcdef") (JStr "#fedcba")]> themed_colors).
Proof. vm_compute. reflexivity. Qed.

(** The pair inserted for ["Dashboard"] is the theme, not the caller's. *)
Example registered_pair_dashboard :
  registered_pair "Dashboard" "#abcdef" "#fedcba" = color_pair (JStr "#ffffff") (JStr "#2c3e50") /\
  registered_pair "Editor" "#abcdef" "#fedcba" = color_pair (JStr "#abcdef") (JStr "#fedcba").
Proof. split; reflexivity. Qed.


End StoreInstances.

(* ===================================================================== *)
(** ** Properties of the repository scan                                  *)
(* ===================================================================== *)

Section ScanProperties.
Import Py Git.
Context (t : tree) (run : runner).

Lemma walk_cons_inv keep p item rest q :
  walk keep t p (item :: rest) = Some q ->
  exists names,
    t !! p = Some (Dir names) /\ item ∈ names /\ keep item = true /\
    isdir t (join p item) = true /\ walk keep t (join p item) rest = Some q.
Proof.
  simpl. destruct (t !! p) as [[|names|]|]; try discriminate.
  destruct (bool_decide (item ∈ names)) eqn:Hin; [|discriminate].
  destruct (keep item) eqn:Hkeep; [|discriminate].
  destruct (isdir t (join p item)) eqn:Hdir; [|discriminate].
  simpl. intros Hwalk. exists names.
  apply bool_decide_eq_true_1 in Hin. auto.
Qed.

Lemma walk_enter p item rest :
  enters t p item ->
  walk not_hidden t p (item :: rest) = walk not_hidden t (join p item) rest.
Proof.
  intros (names & Hp & Hin & Hkeep & Hdir).
  simpl. rewrite Hp, bool_decide_eq_true_2, Hkeep, Hdir by exact Hin.
  reflexivity.
Qed.

Lemma enters_of_walk p item rest q :
  walk not_hidden t p (item :: rest) = Some q -> enters t p item.
Proof.
  intros Hwalk. apply walk_cons_inv in Hwalk as (names & ? & ? & ? & ? & _).
  exists names. auto.
Qed.

(** The paths a search comes across are those its loop body comes across
    for some entry. *)
Lemma reach_iff depth p q :
  reach t depth p q <->
  (depth <= 3)%nat /\ exists item, reach_through t depth p item q.
Proof.
  split.
  - intros (chain & Hlen & Hdepth & Hwalk & Hmarked).
    destruct chain as [|item rest]; simpl in Hlen; [lia|].
    simpl in Hdepth. split; [lia|].
    exists item. split; [eapply enters_of_walk, Hwalk|].
    rewrite walk_enter in Hwalk by (eapply enters_of_walk, Hwalk).
    destruct rest as [|item' rest'].
    + left. simpl in Hwalk. injection Hwalk as <-. auto.
    + right. exists (item' :: rest'). simpl in *. repeat split; auto; lia.
  - intros (Hdepth & item & Henters & [[-> Hmarked] | (chain & Hlen & Hbound & Hwalk & Hmarked)]).
    + exists [item]. rewrite walk_enter by exact Henters. simpl.
      repeat split; auto; lia.
    + exists (item :: chain). rewrite walk_enter by exact Henters. simpl.
      repeat split; auto; lia.
Qed.

Lemma discovered_here depth p item :
  (depth <= 3)%nat -> enters t p item -> marked t (join p item) = true ->
  discovered t run depth p
    {| path := join p item; name := item;
       branch := _get_branch_name run (join p item) |}.
Proof.
  intros Hdepth Henters Hmarked. exists []. simpl app.
  rewrite walk_enter by exact Henters. simpl.
  repeat split; auto; lia.
Qed.

Lemma discovered_below depth p item r :
  enters t p item ->
  discovered t run (S depth) (join p item) r -> discovered t run depth p r.
Proof.
  intros Henters (parents & Hdepth & Hwalk & Hmarked & Hbranch).
  exists (item :: parents). simpl app.
  rewrite walk_enter by exact Henters. simpl in *.
  repeat split; auto; lia.
Qed.

(** *** Composing what the pieces of a search add *)

Lemma extends_refl hits paths a :
  (forall q, paths q -> q ∈ found_paths a) -> extends hits paths a a.
Proof.
  intros Hpaths. split.
  - exists []. split; [symmetry; apply app_nil_r | constructor].
  - intros q. split; [auto | intros [? | ?]; auto].
  - auto.
Qed.

Lemma extends_paths hits paths paths' a a' :
  extends hits paths a a' ->
  (forall q, paths' q <-> paths q) ->
  extends hits paths' a a'.
Proof.
  intros [Hrepos Hfound Hcons] Hpaths. split; auto.
  intros q. rewrite Hfound. specialize (Hpaths q). tauto.
Qed.

Lemma extends_trans hits1 paths1 hits2 paths2 hits paths a a0 a1 :
  extends hits1 paths1 a a0 ->
  extends hits2 paths2 a0 a1 ->
  (forall r, hits1 r -> hits r) ->
  (forall r, hits2 r -> hits r) ->
  (forall q, paths q <-> paths1 q \/ paths2 q) ->
  extends hits paths a a1.
Proof.
  intros [(new1 & Hrepos1 & Hnew1) Hfound1 Hcons1]
         [(new2 & Hrepos2 & Hnew2) Hfound2 Hcons2] Hhits1 Hhits2 Hpaths.
  split.
  - exists (new1 ++ new2)%list. split.
    + rewrite Hrepos2, Hrepos1. symmetry. apply app_assoc.
    + apply Forall_app. split; eapply Forall_impl; eauto.
  - intros q. rewrite Hfound2, Hfound1, Hpaths. tauto.
  - auto.
Qed.

(** The bookkeeping for an entry that holds a [.git] directory. *)
Lemma record_spec depth p item a :
  (depth <= 3)%nat -> enters t p item ->
  extends (discovered t run depth p)
          (fun q => q = join p item /\ marked t q = true) a (recorded t run p item a).
Proof.
  intros Hdepth Henters. unfold recorded. cbv zeta.
  destruct (marked t (join p item)) eqn:Hmarked; simpl.
  2:{ apply extends_refl. intros q [-> Hq]. congruence. }
  destruct (decide (join p item ∈ found_paths a)) as [Hseen | Hnew].
  { rewrite bool_decide_eq_true_2 by exact Hseen. simpl.
    apply extends_refl. intros q [-> _]. exact Hseen. }
  rewrite bool_decide_eq_false_2 by exact Hnew. simpl.
  split; simpl.
  - eexists. split; [reflexivity|].
    constructor; [|constructor]. apply discovered_here; auto.
  - intros q. rewrite elem_of_union, elem_of_singleton.
    split.
    + intros [-> | Hq]; [right; auto | left; auto].
    + intros [Hq | [-> _]]; auto.
  - intros [Hnodup Hsame]. split; simpl.
    + rewrite fmap_app. simpl. apply NoDup_app. repeat split.
      * exact Hnodup.
      * intros q Hq Hq'. apply list_elem_of_singleton in Hq' as ->.
        apply Hnew, Hsame, Hq.
      * apply NoDup_singleton.
    + intros q. rewrite elem_of_union, elem_of_singleton, fmap_app, elem_of_app, Hsame.
      simpl. rewrite list_elem_of_singleton. tauto.
Qed.

(** The loop body on an entry that it goes into: the bookkeeping, then the
    recursive call. *)
Lemma visit_enters search p item a :
  enters t p item ->
  visit t run search p item a = search (join p item) (recorded t run p item a).
Proof.
  intros (names & _ & _ & Hkeep & Hdir).
  unfold visit, recorded, marked, bind, gets, modify, ret. cbv zeta.
  apply negb_true_iff in Hkeep. rewrite Hkeep, Hdir.
  destruct (isdir t (join (join p item) ".git") &&
            negb (bool_decide (join p item ∈ found_paths a))); reflexivity.
Qed.

(** The loop body on an entry that it passes over. *)
Lemma visit_passes search p item a :
  not_hidden item = false \/ isdir t (join p item) = false ->
  visit t run search p item a = (Ok tt, a).
Proof.
  unfold visit, not_hidden, ret.
  intros [Hhidden | Hdir].
  - apply negb_false_iff in Hhidden. rewrite Hhidden. reflexivity.
  - rewrite Hdir. destruct (startswith "." item); reflexivity.
Qed.

Lemma visit_spec search depth p names item a :
  t !! p = Some (Dir names) -> item ∈ names -> (depth <= 3)%nat ->
  search_ok t run search (S depth) ->
  exists a',
    visit t run search p item a = (Ok tt, a') /\
    extends (discovered t run depth p) (reach_through t depth p item) a a'.
Proof.
  intros Hp Hin Hdepth Hsearch.
  destruct (not_hidden item) eqn:Hkeep.
  2:{ exists a. split; [apply visit_passes; auto|]. apply extends_refl.
      intros q [(? & _ & _ & Hkeep' & _) _]. congruence. }
  destruct (isdir t (join p item)) eqn:Hdir.
  2:{ exists a. split; [apply visit_passes; auto|]. apply extends_refl.
      intros q [(? & _ & _ & _ & Hdir') _]. congruence. }
  assert (Henters : enters t p item) by (exists names; auto).
  rewrite (visit_enters _ _ _ _ Henters).
  destruct (Hsearch (join p item) (recorded t run p item a) Hdir) as (a1 & -> & Hbelow).
  exists a1. split; [reflexivity|].
  eapply extends_trans;
    [exact (record_spec depth p item a Hdepth Henters) | exact Hbelow | auto | |].
  - intros r. apply discovered_below, Henters.
  - intros q. unfold reach_through. tauto.
Qed.

Lemma for_each_spec search depth p names :
  t !! p = Some (Dir names) -> (depth <= 3)%nat ->
  search_ok t run search (S depth) ->
  forall items a, (forall item, item ∈ items -> item ∈ names) ->
    exists a',
      for_each (visit t run search p) items a = (Ok tt, a') /\
      extends (discovered t run depth p)
              (fun q => exists item, item ∈ items /\ reach_through t depth p item q) a a'.
Proof.
  intros Hp Hdepth Hsearch items.
  induction items as [|item rest IH]; intros a Hitems; simpl.
  - exists a. split; [reflexivity|]. apply extends_refl.
    intros q (item & Hin & _). inversion Hin.
  - unfold bind.
    destruct (visit_spec search depth p names item a Hp) as (a0 & -> & Hfirst); auto.
    { apply Hitems. left. }
    destruct (IH a0) as (a1 & -> & Hrest).
    { intros item' Hin. apply Hitems. right. exact Hin. }
    exists a1. split; [reflexivity|].
    eapply extends_trans; [exact Hfirst | exact Hrest | auto | auto |].
    intros q. split.
    + intros (item' & Hin & Hq). apply elem_of_cons in Hin as [-> | Hin]; eauto.
    + intros [Hq | (item' & Hin & Hq)]; [exists item | exists item'];
        (split; [|exact Hq]); [left | right; exact Hin].
Qed.

(** The search started with enough fuel returns, and adds what [reach] and
    [discovered] describe. *)
Lemma search_directory_spec fuel :
  forall depth, (4 - depth < fuel)%nat ->
    search_ok t run (fun p => search_directory t run fuel p depth) depth.
Proof.
  induction fuel as [|fuel IH]; intros depth Hfuel p a Hdir; [lia|].
  simpl. destruct (3 <? depth)%nat eqn:Hdepth.
  { apply Nat.ltb_lt in Hdepth. exists a. split; [reflexivity|].
    apply extends_refl. intros q Hq. apply reach_iff in Hq as [? _]. lia. }
  apply Nat.ltb_ge in Hdepth.
  unfold isdir in Hdir. unfold try_except, bind, lift, listdir.
  destruct (t !! p) as [[|names|]|] eqn:Hp; try discriminate.
  - assert (Hbelow : search_ok t run (fun p' => search_directory t run fuel p' (depth + 1)) (S depth)).
    { rewrite Nat.add_1_r. apply IH. lia. }
    destruct (for_each_spec _ depth p names Hp Hdepth Hbelow names a)
      as (a' & -> & Hext); [auto|].
    exists a'. split; [reflexivity|].
    apply (extends_paths _ _ _ _ _ Hext).
    intros q. split.
    + intros Hq. apply reach_iff in Hq as (_ & item & Hq).
      exists item. split; [|exact Hq].
      destruct Hq as [(names' & Hp' & Hin & _) _]. congruence.
    + intros (item & _ & Hq). apply reach_iff. split; [lia | eauto].
  - exists a. split; [reflexivity|]. apply extends_refl.
    intros q Hq. apply reach_iff in Hq as (_ & item & (names & Hp' & _) & _).
    congruence.
Qed.

Lemma nothing_found_consistent : consistent nothing_found.
Proof.
  split; simpl.
  - constructor.
  - intros q. split; intros Hq; [apply not_elem_of_empty in Hq as [] | inversion Hq].
Qed.

(** The whole scan of a directory. *)
Lemma find_all_spec root_path :
  isdir t root_path = true ->
  exists rs,
    _find_all_git_repositories t run root_path = Ok rs /\
    Forall (discovered t run 0 root_path) rs /\
    NoDup (path <$> rs) /\
    forall q, q ∈ path <$> rs <-> reach t 0 root_path q.
Proof.
  intros Hdir. unfold _find_all_git_repositories.
  destruct (search_directory_spec 5 0 ltac:(simpl; lia) root_path nothing_found Hdir)
    as (a & -> & [(new & Hrepos & Hnew) Hfound Hcons]).
  destruct (Hcons nothing_found_consistent) as [Hnodup Hsame].
  exists (repos a). repeat split; auto.
  - rewrite Hrepos. exact Hnew.
  - intros Hq. apply Hsame, Hfound in Hq as [Hq | Hq]; [|exact Hq].
    apply not_elem_of_empty in Hq as [].
  - intros Hq. apply Hsame, Hfound. right. exact Hq.
Qed.

(** The scan of something that is not a directory raises. *)
Lemma find_all_not_a_directory root_path :
  isdir t root_path = false ->
  is_ok (_find_all_git_repositories t run root_path) = false.
Proof.
  unfold _find_all_git_repositories, isdir. simpl.
  unfold try_except, bind, lift, listdir.
  destruct (t !! root_path) as [[| |]|]; simpl; congruence.
Qed.

Lemma walk_nothing_below_a_file keep root_path chain q :
  isdir t root_path = false -> (1 <= length chain)%nat ->
  walk keep t root_path chain = Some q -> False.
Proof.
  unfold isdir. intros Hdir Hlen Hwalk.
  destruct chain as [|item rest]; simpl in Hlen; [lia|].
  apply walk_cons_inv in Hwalk as (names & Hp & _).
  rewrite Hp in Hdir. discriminate.
Qed.

(** C2, as the code has it: the scan returns exactly when the root is a
    directory, and the paths it reports are exactly the directories holding
    a [.git] directory that are reached from the root by a chain of one to
    FOUR entry names (the directories listed are those at depths 0 to 3),
    none of which starts with a dot, every directory on the way being
    listable; each of them is reported once. *)
Theorem scan_reports_exactly root_path :
  is_ok (_find_all_git_repositories t run root_path) = isdir t root_path /\
  match _find_all_git_repositories t run root_path with
  | Ok rs => NoDup (path <$> rs)
  | Raise _ => True
  end /\
  forall q,
    reports t run root_path q <->
    exists chain,
      (1 <= length chain <= 4)%nat /\
      walk not_hidden t root_path chain = Some q /\ marked t q = true.
Proof.
  destruct (isdir t root_path) eqn:Hdir.
  - destruct (find_all_spec root_path Hdir) as (rs & Hrs & _ & Hnodup & Hpaths).
    split; [rewrite Hrs; reflexivity|].
    split; [rewrite Hrs; exact Hnodup|].
    intros q. unfold reports. rewrite Hrs. split.
    + intros (rs' & [= <-] & Hq). apply Hpaths in Hq as (chain & ? & ? & ? & ?).
      exists chain. repeat split; auto; lia.
    + intros (chain & [? ?] & ? & ?). exists rs. split; [reflexivity|].
      apply Hpaths. exists chain. repeat split; auto.
  - pose proof (find_all_not_a_directory root_path Hdir) as Hraise.
    split; [exact Hraise|].
    split; [destruct (_find_all_git_repositories t run root_path); [discriminate | exact I]|].
    clear Hraise. intros q. split.
    + intros (rs & Hrs & _).
      pose proof (find_all_not_a_directory root_path Hdir) as Hraise.
      rewrite Hrs in Hraise. discriminate.
    + intros (chain & [? _] & Hwalk & _).
      destruct (walk_nothing_below_a_file _ _ _ _ Hdir ltac:(eassumption) Hwalk).
Qed.

(** No path is reported twice. *)
Lemma scan_reports_once root_path rs :
  _find_all_git_repositories t run root_path = Ok rs -> NoDup (path <$> rs).
Proof.
  intros Hrs. destruct (isdir t root_path) eqn:Hdir.
  - destruct (find_all_spec root_path Hdir) as (rs' & Hrs' & _ & Hnodup & _).
    congruence.
  - pose proof (find_all_not_a_directory root_path Hdir) as Hraise.
    rewrite Hrs in Hraise. discriminate.
Qed.


(** *** Names and paths *)

Lemma length_append (a b : string) :
  String.length (a +:+ b) = (String.length a + String.length b)%nat.
Proof. induction a as [|c a IH]; simpl; [reflexivity | rewrite IH; reflexivity]. Qed.

(** A proper entry name makes the path longer. *)
Lemma join_longer p item :
  proper_name item = true ->
  (String.length p < String.length (join p item))%nat.
Proof.
  unfold proper_name. intros Hitem.
  apply andb_prop in Hitem as [Hnonempty Hsep].
  destruct item as [|c item]; [discriminate Hnonempty|].
  unfold join, startswith.
  assert (Hprefix : String.prefix "/" (String c item) = false).
  { apply negb_true_iff in Hsep. simpl in Hsep.
    apply orb_false_iff in Hsep as [Hsep _]. exact Hsep. }
  rewrite Hprefix.
  destruct (is_empty p || endswith_sep p); rewrite !length_append; simpl; lia.
Qed.

Lemma proper_names_lookup p names item :
  proper_names t = true -> t !! p = Some (Dir names) -> item ∈ names ->
  proper_name item = true.
Proof.
  unfold proper_names. intros Hall Hp Hin.
  rewrite forallb_forall in Hall.
  apply elem_of_map_to_list, list_elem_of_In, Hall in Hp. simpl in Hp.
  rewrite forallb_forall in Hp. apply Hp, list_elem_of_In, Hin.
Qed.

Lemma walk_longer keep chain :
  proper_names t = true ->
  forall p q, walk keep t p chain = Some q ->
    (String.length p + length chain <= String.length q)%nat.
Proof.
  intros Hproper. induction chain as [|item rest IH]; intros p q Hwalk.
  - simpl in Hwalk. injection Hwalk as <-. simpl. lia.
  - apply walk_cons_inv in Hwalk as (names & Hp & Hin & _ & _ & Hwalk).
    apply IH in Hwalk.
    pose proof (join_longer p item (proper_names_lookup p names item Hproper Hp Hin)).
    simpl. lia.
Qed.

(** A chain that the search follows has no hidden name, and is a chain of
    the tree. *)
Lemma walk_not_hidden chain :
  forall p q, walk not_hidden t p chain = Some q ->
    Forall (fun item => startswith "." item = false) chain /\
    walk any_name t p chain = Some q.
Proof.
  induction chain as [|item rest IH]; intros p q Hwalk.
  - split; [constructor | exact Hwalk].
  - apply walk_cons_inv in Hwalk as (names & Hp & Hin & Hkeep & Hdir & Hwalk).
    apply IH in Hwalk as [Hrest Hwalk]. split.
    + constructor; [|exact Hrest]. apply negb_true_iff, Hkeep.
    + simpl. rewrite Hp, bool_decide_eq_true_2, Hdir by exact Hin. exact Hwalk.
Qed.

(** C10: a reported repository is never the scanned root, whatever the root
    holds, and the chain of entry names that leads from the root to it,
    its own name last, has no name that starts with a dot: neither a hidden
    directory nor anything inside one is reported.  Entry names are as a
    file system gives them (not empty, no separator). *)
Theorem scan_skips_root_and_hidden root_path rs r :
  proper_names t = true ->
  _find_all_git_repositories t run root_path = Ok rs ->
  r ∈ rs ->
  path r <> root_path /\
  startswith "." (name r) = false /\
  exists parents,
    Forall (fun item => startswith "." item = false) (parents ++ [name r]) /\
    walk any_name t root_path (parents ++ [name r]) = Some (path r).
Proof.
  intros Hproper Hrs Hr.
  destruct (isdir t root_path) eqn:Hdir.
  2:{ pose proof (find_all_not_a_directory root_path Hdir) as Hraise.
      rewrite Hrs in Hraise. discriminate. }
  destruct (find_all_spec root_path Hdir) as (rs' & Hrs' & Hall & _).
  assert (rs' = rs) as -> by congruence.
  rewrite Forall_forall in Hall.
  destruct (Hall r Hr) as (parents & _ & Hwalk & _).
  apply walk_not_hidden in Hwalk as [Hchain Hwalk].
  repeat split.
  - intros Heq. apply (walk_longer _ _ Hproper) in Hwalk.
    rewrite Heq, length_app in Hwalk. simpl in Hwalk. lia.
  - apply Forall_app in Hchain as [_ Hlast]. inversion Hlast; assumption.
  - exists parents. split; assumption.
Qed.

(** The paths that [descend] lists are those that [walk] reaches. *)
Lemma descend_complete keep n :
  forall chain p q,
    walk keep t p chain = Some q -> (1 <= length chain <= n)%nat ->
    q ∈ descend keep t n p.
Proof.
  induction n as [|n IH]; intros chain p q Hwalk Hlen; [lia|].
  destruct chain as [|item rest]; simpl in Hlen; [lia|].
  apply walk_cons_inv in Hwalk as (names & Hp & Hin & Hkeep & Hdir & Hwalk).
  simpl. rewrite Hp. apply list_elem_of_In, in_flat_map.
  exists item. split; [apply list_elem_of_In, Hin|].
  rewrite Hkeep, Hdir. simpl.
  destruct rest as [|item' rest'].
  - left. simpl in Hwalk. congruence.
  - right. apply list_elem_of_In. apply (IH (item' :: rest')); [exact Hwalk|].
    simpl in *. lia.
Qed.

(** *** The branch lookup *)

(** C6, as the code has it: for every repository path the lookup returns
    ["Unknown"] when the branch command raises (an error, or the 5-second
    timeout), and when it exits with a status other than 0 and the fallback
    command raises or exits with a status other than 0 as well. *)
Theorem branch_lookup_failure_gives_unknown repo_path :
  lookup_fails run repo_path ->
  _get_branch_name run repo_path = "Unknown".
Proof.
  unfold lookup_fails, _get_branch_name.
  destruct (run abbrev_ref_head repo_path) as [returncode stdout| |]; simpl;
    [|reflexivity..].
  intros [Hraised | [Hstatus Hfallback]]; [discriminate|].
  apply negb_true_iff in Hstatus. rewrite Hstatus.
  destruct (run short_head repo_path) as [returncode' stdout'| |]; simpl in *;
    [|reflexivity..].
  destruct Hfallback as [Hraised | Hstatus']; [discriminate|].
  apply negb_true_iff in Hstatus'. rewrite Hstatus'. reflexivity.
Qed.

(** The other answers of the lookup. *)
Lemma branch_lookup_on_branch repo_path stdout :
  run abbrev_ref_head repo_path = Completed 0 stdout ->
  _get_branch_name run repo_path = strip stdout.
Proof. unfold _get_branch_name. intros ->. reflexivity. Qed.

Lemma branch_lookup_detached repo_path stdout :
  exited_nonzero (run abbrev_ref_head repo_path) = true ->
  run short_head repo_path = Completed 0 stdout ->
  _get_branch_name run repo_path = "detached-" +:+ strip stdout.
Proof.
  unfold _get_branch_name.
  destruct (run abbrev_ref_head repo_path) as [returncode stdout'| |]; simpl;
    try discriminate.
  intros Hstatus ->. apply negb_true_iff in Hstatus. rewrite Hstatus. reflexivity.
Qed.

End ScanProperties.

(** *** The scan on concrete trees *)

Section ScanInstances.
Import Py Git Fixtures.

(** The scan of [deep_tree] finds the repository four levels down, and
    neither what lies below it nor the hidden one. *)
Example scan_deep_tree :
  _find_all_git_repositories deep_tree on_main "/r" =
    Ok [{| path := "/r/a/b/c/d"; name := "d"; branch := "main" |}].
Proof. vm_compute. reflexivity. Qed.

(** The scan of [small_tree]: the marked root is not reported, the locked
    directory is passed over. *)
Example scan_small_tree :
  _find_all_git_repositories small_tree no_git "/w" =
    Ok [{| path := "/w/app"; name := "app"; branch := "Unknown" |}].
Proof. vm_compute. reflexivity. Qed.

(** Against C2 as the specification words it: on [deep_tree] it fails in
    both directions, for [/r/a/b/c/d] is reported though it lies at depth 4,
    and [/r/.h], a marked directory at depth 1, is not reported. *)
Lemma scan_differs_from_wording :
  ~ (forall q, reports deep_tree on_main "/r" q <-> spec_reports 3 deep_tree "/r" q) /\
  (reports deep_tree on_main "/r" "/r/a/b/c/d" /\
   ~ spec_reports 3 deep_tree "/r" "/r/a/b/c/d") /\
  (spec_reports 3 deep_tree "/r" "/r/.h" /\
   ~ reports deep_tree on_main "/r" "/r/.h").
Proof.
  assert (Hdeep : reports deep_tree on_main "/r" "/r/a/b/c/d").
  { eexists. split; [apply scan_deep_tree|]. apply list_elem_of_In. simpl. auto. }
  assert (Hnot_deep : ~ spec_reports 3 deep_tree "/r" "/r/a/b/c/d").
  { intros (chain & Hlen & Hwalk & _).
    apply (descend_complete _ _ 3) in Hwalk; [|exact Hlen].
    apply list_elem_of_In in Hwalk. vm_compute in Hwalk.
    repeat destruct Hwalk as [Hwalk | Hwalk]; try discriminate Hwalk; exact Hwalk. }
  assert (Hhidden : spec_reports 3 deep_tree "/r" "/r/.h").
  { exists [".h"]. repeat split; simpl; try lia; vm_compute; reflexivity. }
  assert (Hnot_hidden : ~ reports deep_tree on_main "/r" "/r/.h").
  { intros (rs & Hrs & Hin). rewrite scan_deep_tree in Hrs. injection Hrs as <-.
    apply list_elem_of_In in Hin. simpl in Hin.
    destruct Hin as [Hin | []]. discriminate Hin. }
  repeat split; auto.
  intros Hsame. apply Hnot_deep, Hsame, Hdeep.
Qed.

Lemma scan_skips_root_and_hidden_witness :
  proper_names small_tree = true /\
  _find_all_git_repositories small_tree no_git "/w" =
    Ok [{| path := "/w/app"; name := "app"; branch := "Unknown" |}] /\
  "/w/app" <> "/w" /\
  startswith "." "app" = false /\
  exists parents,
    Forall (fun item => startswith "." item = false) (parents ++ ["app"]) /\
    walk any_name small_tree "/w" (parents ++ ["app"]) = Some "/w/app".
Proof.
  split; [vm_compute; reflexivity|]. split; [apply scan_small_tree|].
  apply (scan_skips_root_and_hidden small_tree no_git "/w"
           [{| path := "/w/app"; name := "app"; branch := "Unknown" |}]
           {| path := "/w/app"; name := "app"; branch := "Unknown" |}).
  - vm_compute. reflexivity.
  - apply scan_small_tree.
  - apply list_elem_of_In. simpl. auto.
Defined.

Lemma branch_lookup_failure_gives_unknown_witness :
  lookup_fails fails_then_hangs "/w/app" /\
  lookup_fails hanging "/w/app" /\
  _get_branch_name fails_then_hangs "/w/app" = "Unknown".
Proof.
  split; [right; split; [reflexivity | left; reflexivity]|].
  split; [left; reflexivity|].
  apply (branch_lookup_failure_gives_unknown fails_then_hangs "/w/app").
  right. split; [reflexivity | left; reflexivity].
Defined.

(** Both commands exit with status 128, as in a directory that is no
    repository: ["Unknown"]. *)
Example branch_lookup_not_a_repo :
  _get_branch_name not_a_repo "/w/vault" = "Unknown".
Proof. reflexivity. Qed.

(** Against C6 as the specification words it: where the branch command
    exits with status 128 and the fallback command answers, the lookup
    returns the commit with the prefix [detached-], not ["Unknown"]. *)
Lemma branch_lookup_fallback_answers :
  exited_nonzero (fallback_answers abbrev_ref_head "/w/app") = true /\
  _get_branch_name fallback_answers "/w/app" = "detached-1a2b3c4" /\
  _get_branch_name fallback_answers "/w/app" <> "Unknown".
Proof. repeat split. discriminate. Qed.

End ScanInstances.

(* ===================================================================== *)
(** ** More on the configuration store                                    *)
(* ===================================================================== *)

(** *** What a piece of code leaves as it is *)

Section Unchanged.
Import Py StoreApi.
Context {S B : Type} (f : S -> B).

Lemma unchanged_ret {A} (a : A) : unchanged f (ret a).
Proof. intros s. reflexivity. Qed.

Lemma unchanged_raise {A} e : unchanged f (@raise S A e).
Proof. intros s. reflexivity. Qed.

Lemma unchanged_lift {A} (r : result A) : unchanged f (lift r).
Proof. intros s. reflexivity. Qed.

Lemma unchanged_gets {A} (g : S -> A) : unchanged f (gets g).
Proof. intros s. reflexivity. Qed.

Lemma unchanged_modify (g : S -> S) :
  (forall s, f (g s) = f s) -> unchanged f (modify g).
Proof. intros Hg s. apply Hg. Qed.

Lemma unchanged_bind {A A'} (m : M S A) (k : A -> M S A') :
  unchanged f m -> (forall a, unchanged f (k a)) -> unchanged f (bind m k).
Proof.
  intros Hm Hk s. unfold bind. specialize (Hm s).
  destruct (m s) as [[a|e] s']; simpl in *.
  - rewrite Hk. exact Hm.
  - exact Hm.
Qed.

Lemma unchanged_if {A} (b : bool) (m1 m2 : M S A) :
  unchanged f m1 -> unchanged f m2 -> unchanged f (if b then m1 else m2).
Proof. destruct b; auto. Qed.

Lemma unchanged_try_except (body handler : M S unit) handles :
  unchanged f body -> unchanged f handler ->
  unchanged f (try_except body handles handler).
Proof.
  intros Hbody Hhandler s. unfold try_except. specialize (Hbody s).
  destruct (body s) as [[[]|e] s']; simpl in *; [exact Hbody|].
  destruct (handles e); [|exact Hbody].
  rewrite Hhandler. exact Hbody.
Qed.

Lemma unchanged_for_in {A} (body : A -> M S unit) (items : list A) :
  (forall x, unchanged f (body x)) -> unchanged f (for_in body items).
Proof.
  intros Hbody. induction items as [|x rest IH]; simpl.
  - apply unchanged_ret.
  - apply unchanged_bind; auto.
Qed.

End Unchanged.

(** Goes through a method body, and stops at [save_config] and at the
    updates that need an argument. *)
Ltac unchanged_steps :=
  repeat lazymatch goal with
    | |- StoreApi.unchanged _ (Store.save_config _) => fail
    | |- StoreApi.unchanged _ (match ?x with _ => _ end) => destruct x
    | |- _ =>
        first
          [ apply unchanged_ret | apply unchanged_raise | apply unchanged_lift
          | apply unchanged_gets
          | apply unchanged_bind; [|intros ?]
          | apply unchanged_if
          | apply unchanged_modify; intros ?; reflexivity ]
    end.

Section StoreApiProperties.
Import Py Store Wording StoreApi.
Context `{Host}.

(** [save_config(path)], case by case. *)
Lemma save_config_unfold path w :
  let target := save_target path (self w) in
  save_config path w =
    if str_contains "/" target then
      (Ok tt,
       {| self := share_modules (self w);
          disk := <[target := json_dump (JObj (saved_document (self w)))]> (disk w) |})
    else (Raise FileNotFoundError, w).
Proof.
  intros target.
  unfold save_config, bind, read, gets, makedirs, update, modify, write_file, ret, raise; simpl.
  fold (save_target path (self w)). fold target.
  rewrite dirname_empty.
  destruct (str_contains "/" target); simpl; [|reflexivity].
  rewrite document_share_modules. reflexivity.
Qed.


(** Outside ["modules"], the document is [self.config]. *)
Lemma document_lookup_ne c k :
  k <> "modules" -> document c !! k = config c !! k.
Proof.
  intros Hk. unfold document. destruct (modules_shared c); [|reflexivity].
  apply lookup_insert_ne. congruence.
Qed.

Lemma document_set_config_item c k v :
  k <> "modules" -> document (set_config_item k v c) = <[k := v]> (document c).
Proof.
  intros Hk. unfold document, set_config_item; simpl.
  destruct (modules_shared c); [|reflexivity].
  apply insert_insert_ne. congruence.
Qed.

Lemma save_config_item path k :
  k <> "modules" -> unchanged (item k) (save_config path).
Proof.
  intros Hk w. rewrite save_config_unfold. cbv zeta.
  destruct (str_contains "/" _); unfold item; simpl; [|reflexivity].
  apply lookup_insert_ne. congruence.
Qed.

Lemma save_config_colors path :
  unchanged (fun w => module_colors (self w)) (save_config path).
Proof.
  intros w. rewrite save_config_unfold. cbv zeta.
  destruct (str_contains "/" _); reflexivity.
Qed.

Lemma save_config_path path :
  unchanged (fun w => config_path (self w)) (save_config path).
Proof.
  intros w. rewrite save_config_unfold. cbv zeta.
  destruct (str_contains "/" _); reflexivity.
Qed.

Lemma save_config_document path k w :
  k <> "modules" ->
  document (self (snd (save_config path w))) !! k = document (self w) !! k.
Proof.
  intros Hk. rewrite !document_lookup_ne by exact Hk.
  apply (save_config_item path k Hk w).
Qed.

(** Every public mutation leaves the path of the store as it is. *)
Lemma run_path mu : unchanged (fun w => config_path (self w)) (run mu).
Proof.
  destruct mu; simpl;
    unfold set_module_color, set_window_color, update_settings, register_module,
      reset_to_defaults, config_item, read, update;
    unchanged_steps;
    try apply save_config_path;
    try (apply unchanged_modify; intros w; reflexivity).
Qed.

Lemma update_item k (g : ColorConfig -> ColorConfig) :
  (forall c, config (g c) !! k = config c !! k) -> unchanged (item k) (update g).
Proof. intros Hg w. apply Hg. Qed.

Lemma rebind_module_colors_item k v c :
  k <> "modules" -> config (rebind_module_colors v c) !! k = config c !! k.
Proof. intros Hk. simpl. apply document_lookup_ne, Hk. Qed.

Lemma set_config_item_other k k' v c :
  k <> k' -> config (set_config_item k' v c) !! k = config c !! k.
Proof. intros Hk. simpl. apply lookup_insert_ne. congruence. Qed.

Lemma run_item mu k :
  touches mu k = false -> unchanged (item k) (run mu).
Proof.
  intros Htouch.
  assert (Hmodules : k <> "modules").
  { intros ->. destruct mu; discriminate Htouch. }
  destruct mu; simpl in Htouch; simpl;
    try (apply orb_false_iff in Htouch as [Hown _]; apply String.eqb_neq in Hown);
    unfold set_module_color, set_window_color, update_settings, register_module,
      reset_to_defaults, config_item, read;
    unchanged_steps;
    try (apply save_config_item; exact Hmodules);
    apply update_item; intros c;
    first [ reflexivity
          | apply set_config_item_other; exact Hown
          | apply rebind_module_colors_item; exact Hmodules
          | apply (set_config_item_other k "modules"); exact Hmodules ].
Qed.

(** A public mutation changes, of the document, only the keys that are its
    own: ["modules"] for the module colours, ["window"] and ["settings"] for
    the window pair and the settings, besides ["modules"], which every save
    writes anew from [self.module_colors].  This holds whether the call
    returns or raises. *)
Theorem mutation_frame mu k w :
  touches mu k = false ->
  document (self (snd (run mu w))) !! k = document (self w) !! k.
Proof.
  intros Htouch.
  assert (Hmodules : k <> "modules").
  { intros ->. destruct mu; discriminate Htouch. }
  rewrite !document_lookup_ne by exact Hmodules.
  apply (run_item mu k Htouch w).
Qed.


(** [set_window_color] up to the save. *)
Lemma set_window_color_unsaved color_type color_value w :
  item_writable "window" (self w) = true ->
  set_window_color color_type color_value false w =
    (Ok tt, {| self := with_window color_type color_value (self w); disk := disk w |}).
Proof.
  unfold item_writable, with_window. intros Hwritable.
  unfold set_window_color, config_item, bind, read, gets, update, modify, lift, ret; simpl.
  destruct (document (self w) !! "window") as [window|] eqn:Hwindow; simpl.
  - rewrite Hwindow. destruct window; try discriminate Hwritable. simpl.
    destruct w as [c fs]; reflexivity.
  - rewrite document_set_config_item by discriminate.
    rewrite lookup_insert_eq. simpl.
    unfold set_config_item; simpl. rewrite insert_insert_eq. reflexivity.
Qed.

Lemma set_window_color_saved color_type color_value w :
  item_writable "window" (self w) = true ->
  set_window_color color_type color_value true w =
    save_config None
      {| self := with_window color_type color_value (self w); disk := disk w |}.
Proof.
  unfold item_writable, with_window. intros Hwritable.
  unfold set_window_color, config_item, bind, read, gets, update, modify, lift, ret; simpl.
  destruct (document (self w) !! "window") as [window|] eqn:Hwindow; simpl.
  - rewrite Hwindow. destruct window; try discriminate Hwritable. simpl.
    destruct w as [c fs]; reflexivity.
  - rewrite document_set_config_item by discriminate.
    rewrite lookup_insert_eq. simpl.
    unfold set_config_item; simpl. rewrite insert_insert_eq. reflexivity.
Qed.

Lemma set_window_color_window color_type color_value auto_save w :
  item_writable "window" (self w) = true ->
  let w' := snd (set_window_color color_type color_value auto_save w) in
  document (self w') !! "window" =
    Some (JObj (<[color_type := JStr color_value]>
                  (dict_item "window" default_window_pair (self w)))) /\
  module_colors (self w') = module_colors (self w).
Proof.
  intros Hwritable w'. unfold w'. destruct auto_save.
  - rewrite set_window_color_saved by exact Hwritable.
    rewrite save_config_colors, save_config_document by discriminate.
    split; [|reflexivity]. simpl.
    rewrite document_lookup_ne by discriminate. apply lookup_insert_eq.
  - rewrite set_window_color_unsaved by exact Hwritable. simpl.
    split; [|reflexivity].
    rewrite document_lookup_ne by discriminate. apply lookup_insert_eq.
Qed.

(** After [set_window_color(channel, value, auto_save)], [get_window_colors]
    returns the window pair with that channel set to the value; a store
    without a window pair gets the default pair first, so that the other
    channel then is the default one.  The module colours stay.  This holds
    for either choice of [auto_save] and whether the save succeeds or
    raises, on a store whose window entry is absent or a [dict]. *)
Theorem set_then_get_window_colors color_type color_value auto_save w :
  item_writable "window" (self w) = true ->
  let w' := snd (set_window_color color_type color_value auto_save w) in
  get_window_colors w' =
    (Ok (JObj (<[color_type := JStr color_value]>
                 (dict_item "window" default_window_pair (self w)))), w') /\
  module_colors (self w') = module_colors (self w).
Proof.
  intros Hwritable w'.
  destruct (set_window_color_window color_type color_value auto_save w Hwritable)
    as [Hwindow Hcolors].
  fold w' in Hwindow, Hcolors. split; [|exact Hcolors].
  unfold get_window_colors, bind, read, gets, lift. simpl.
  rewrite Hwindow. reflexivity.
Qed.

(** [update_settings] up to the save. *)
Lemma update_settings_saved settings w :
  item_writable "settings" (self w) = true ->
  update_settings settings w =
    save_config None {| self := with_settings settings (self w); disk := disk w |}.
Proof.
  unfold item_writable, with_settings. intros Hwritable.
  unfold update_settings, config_item, dict_update, bind, read, gets, update, modify,
    lift, ret; simpl.
  destruct (document (self w) !! "settings") as [current|] eqn:Hcurrent; simpl.
  - rewrite Hcurrent. destruct current; try discriminate Hwritable. simpl.
    destruct w as [c fs]; reflexivity.
  - rewrite document_set_config_item by discriminate.
    rewrite lookup_insert_eq. simpl.
    unfold set_config_item; simpl. rewrite insert_insert_eq. reflexivity.
Qed.

(** After [update_settings(settings)], [get_settings] returns the settings
    held before with those of [settings] laid over them: a key of
    [settings] has its new value, every other key keeps the one it had.  A
    store without settings starts from none.  The module colours stay.  This
    holds whether the save succeeds or raises, on a store whose settings are
    absent or a [dict]. *)
Theorem update_then_get_settings settings w :
  item_writable "settings" (self w) = true ->
  let w' := snd (update_settings settings w) in
  let before := dict_item "settings" ∅ (self w) in
  get_settings w' = (Ok (JObj (settings ∪ before)), w') /\
  (forall k, (settings ∪ before) !! k =
             match settings !! k with Some v => Some v | None => before !! k end) /\
  module_colors (self w') = module_colors (self w).
Proof.
  intros Hwritable w' before.
  assert (Hsettings : document (self w') !! "settings" = Some (JObj (settings ∪ before)) /\
                      module_colors (self w') = module_colors (self w)).
  { unfold w'. rewrite update_settings_saved by exact Hwritable.
    rewrite save_config_colors, save_config_document by discriminate.
    split; [|reflexivity]. simpl.
    rewrite document_lookup_ne by discriminate. apply lookup_insert_eq. }
  destruct Hsettings as [Hsettings Hcolors]. repeat split; [| |exact Hcolors].
  - unfold get_settings, read, gets. simpl. rewrite Hsettings. reflexivity.
  - intros k. rewrite lookup_union.
    destruct (settings !! k), (before !! k); reflexivity.
Qed.

(** No public mutation touches a file other than the file of the store,
    whether it returns or raises. *)
Theorem mutation_other_files mu w p :
  p <> config_path (self w) ->
  disk (snd (run mu w)) !! p = disk w !! p.
Proof.
  intros Hp.
  assert (Hrest : unchanged (fun w => (config_path (self w), delete (config_path (self w)) (disk w)))
                    (run mu)).
  { assert (Hsave : unchanged (fun w => (config_path (self w),
                                         delete (config_path (self w)) (disk w)))
                      (save_config None)).
    { intros w0. rewrite save_config_unfold. cbv zeta.
      destruct (str_contains "/" _); simpl; [|reflexivity].
      unfold save_target; simpl. rewrite delete_insert_eq. reflexivity. }
    destruct mu; simpl;
      unfold set_module_color, set_window_color, update_settings, register_module,
        reset_to_defaults, config_item, read, update;
      unchanged_steps; exact Hsave. }
  specialize (Hrest w). injection Hrest as Hpath Hfiles.
  rewrite Hpath in Hfiles.
  apply (f_equal (fun d => d !! p)) in Hfiles.
  rewrite !lookup_delete_ne in Hfiles by congruence. exact Hfiles.
Qed.

(** With [auto_save=False], [set_module_color] and [set_window_color]
    write no file at all, whether they return or raise. *)
Theorem unsaved_changes_leave_disk module_name color_type color_value w :
  disk (snd (set_module_color module_name color_type color_value false w)) = disk w /\
  disk (snd (set_window_color color_type color_value false w)) = disk w.
Proof.
  split.
  - revert w. change (unchanged disk (set_module_color module_name color_type color_value false)).
    unfold set_module_color, read, update. unchanged_steps.
  - revert w. change (unchanged disk (set_window_color color_type color_value false)).
    unfold set_window_color, config_item, read, update. unchanged_steps.
Qed.

(** [set_module_color] changes one channel of one module: what
    [get_module_color] returns for any other module, and for any other
    channel of the same module, is what it returned before. *)
Theorem set_module_color_other module_name color_type color_value auto_save
    module_name' color_type' w :
  entry_writable module_name (module_colors (self w)) = true ->
  module_name' <> module_name \/ color_type' <> color_type ->
  let w' := snd (set_module_color module_name color_type color_value auto_save w) in
  fst (get_module_color module_name' color_type' w') =
  fst (get_module_color module_name' color_type' w).
Proof.
  intros Hentry Hother w'.
  destruct (module_colors (self w)) as [| | | | | |d] eqn:Hd; try discriminate Hentry.
  pose proof (set_module_color_colors w module_name color_type color_value auto_save d Hd Hentry)
    as Hcolors.
  fold w' in Hcolors.
  rewrite (get_module_color_dict _ _ _ _ Hcolors), (get_module_color_dict _ _ _ _ Hd). simpl.
  destruct (decide (module_name' = module_name)) as [-> | Hname].
  - destruct Hother as [[] | Htype]; [reflexivity|].
    rewrite lookup_insert_eq. simpl.
    rewrite lookup_insert_ne by congruence.
    unfold entry_of. simpl in Hentry.
    destruct (d !! module_name) as [[]|]; try discriminate Hentry; reflexivity.
  - rewrite lookup_insert_ne by congruence. reflexivity.
Qed.

(** A module that [set_module_color] has touched counts as registered:
    [register_module] then returns normally and changes nothing, so the
    colour set stays, and a module that was new keeps the one channel that
    was set, without its theme and without the other channel. *)
Theorem register_after_set module_name color_type color_value auto_save bg fg d w :
  module_colors (self w) = JObj d ->
  entry_writable module_name (JObj d) = true ->
  let w1 := snd (set_module_color module_name color_type color_value auto_save w) in
  register_module module_name bg fg w1 = (Ok tt, w1) /\
  module_colors (self w1) =
    JObj (<[module_name := JObj (<[color_type := JStr color_value]> (entry_of module_name d))]> d) /\
  (d !! module_name = None ->
   forall color_type',
     fst (get_module_color module_name color_type' w1) =
     Ok (if decide (color_type' = color_type) then JStr color_value else JNull)).
Proof.
  intros Hd Hentry w1.
  pose proof (set_module_color_colors w module_name color_type color_value auto_save d Hd Hentry)
    as Hcolors.
  fold w1 in Hcolors. split; [|split; [exact Hcolors|]].
  - apply (register_module_present w1 _ _ _ _ Hcolors).
    rewrite lookup_insert_eq. eauto.
  - intros Hnew color_type'.
    rewrite (get_module_color_dict _ _ _ _ Hcolors). simpl.
    rewrite lookup_insert_eq. simpl.
    unfold entry_of. rewrite Hnew.
    destruct (decide (color_type' = color_type)) as [-> | Hother].
    + rewrite lookup_insert_eq. reflexivity.
    + rewrite lookup_insert_ne by congruence. rewrite lookup_empty. reflexivity.
Qed.

(** [get_module_colors] on a store typed as annotated. *)
Lemma get_module_colors_dict module_name d w :
  module_colors (self w) = JObj d ->
  entry_writable module_name (JObj d) = true ->
  get_module_colors module_name w = (Ok (JObj (entry_of module_name d)), w).
Proof.
  intros Hd Hentry.
  unfold get_module_colors, bind, read, gets, lift; simpl. rewrite Hd. simpl.
  unfold entry_of. simpl in Hentry.
  destruct (d !! module_name) as [[]|]; try discriminate Hentry; reflexivity.
Qed.

(** [apply_colors_to_module] gives a named module the channels that the
    store holds for it and leaves every other attribute, and the store, as
    they are; a module that the store does not know, and a module without a
    name, stay as they are.  It does not raise on a store typed as
    annotated. *)
Theorem apply_colors_to_module_spec m d w :
  module_colors (self w) = JObj d ->
  (forall module_name, named m = Some module_name ->
     entry_writable module_name (JObj d) = true) ->
  apply_colors_to_module m w =
    (Ok (match named m with
         | Some module_name => colored (entry_of module_name d) m
         | None => m
         end), w).
Proof.
  intros Hd Hentry. unfold apply_colors_to_module.
  destruct (named m) as [module_name|]; [|reflexivity].
  unfold bind. rewrite (get_module_colors_dict module_name d w Hd (Hentry _ eq_refl)).
  unfold colored, overlay, lift, ret, contains, getitem. simpl.
  destruct (entry_of module_name d !! "bg_color") as [bg|] eqn:Hbg; simpl;
    destruct (entry_of module_name d !! "fg_color") as [fg|] eqn:Hfg; simpl;
    reflexivity.
Qed.

(** A file that holds JSON other than an object makes the constructor raise
    [AttributeError]; the file stays as it is. *)
Theorem init_rejects_non_dict path text v (d : files) :
  d !! or_else path DEFAULT_CONFIG_PATH = Some text ->
  json_load text = Some v ->
  is_dict v = false ->
  fst (__init__ path d) = Raise AttributeError /\
  disk (snd (__init__ path d)) = d.
Proof.
  intros Hfile Hparse Hdict. unfold __init__.
  rewrite load_config_unfold. unfold load_config_cases. simpl.
  rewrite Hfile, Hparse.
  destruct v; try discriminate Hdict; split; reflexivity.
Qed.

(** A save that went through leaves the store in sync. *)
Lemma saved_in_sync w0 w' :
  save_config None w0 = (Ok tt, w') ->
  reads_back (JObj (document (self w'))) ->
  in_sync w'.
Proof.
  rewrite save_config_unfold. cbv zeta.
  destruct (str_contains "/" _); [|discriminate].
  intros [= <-]. simpl. rewrite document_share_modules.
  intros Hcodec. split; simpl.
  - eexists. split; [apply lookup_insert_eq|].
    rewrite document_share_modules. exact Hcodec.
  - rewrite document_share_modules. unfold saved_document.
    rewrite lookup_insert_eq. reflexivity.
Qed.

(** A public mutation that returns has changed nothing or has ended in
    [save_config]. *)
Lemma run_ends mu w :
  fst (run mu w) = Ok tt ->
  run mu w = (Ok tt, w) \/ exists w0, run mu w = save_config None w0.
Proof.
  destruct mu; simpl;
    unfold set_module_color, set_window_color, update_settings, register_module,
      reset_to_defaults, config_item, bind, read, gets, update, modify, lift, ret, raise;
    simpl;
    repeat match goal with
      | |- context [match ?x with _ => _ end] =>
          lazymatch x with
          | save_config _ _ => fail
          | _ => destruct x eqn:?; simpl
          end
      end;
    intros Hok; try discriminate Hok;
    first [ right; eexists; reflexivity | left; reflexivity ].
Qed.

(** With [auto_save] on, the store stays in sync: after a public mutation
    that returns normally, a restart would find the document and the module
    colours as they are in memory, provided the codec reads the document
    back as it wrote it. *)
Theorem mutation_keeps_in_sync mu w :
  in_sync w ->
  fst (run mu w) = Ok tt ->
  reads_back (JObj (document (self (snd (run mu w))))) ->
  in_sync (snd (run mu w)).
Proof.
  intros Hsync Hok Hcodec.
  destruct (run_ends mu w Hok) as [Hsame | (w0 & Hsave)].
  - rewrite Hsame. exact Hsync.
  - rewrite Hsave in *. destruct (save_config None w0) as [[[]|e] w'] eqn:Hw'; [|discriminate Hok].
    apply (saved_in_sync w0 w' Hw'), Hcodec.
Qed.

(** The constructor, where it returns, leaves the store in sync. *)
Theorem init_in_sync path (d : files) :
  fst (__init__ path d) = Ok tt ->
  reads_back (JObj default_config) ->
  in_sync (snd (__init__ path d)).
Proof.
  unfold __init__. rewrite load_config_unfold. unfold load_config_cases. simpl.
  set (p := or_else path DEFAULT_CONFIG_PATH).
  set (w0 := {| self := {| config_path := p; config := ∅; module_colors := dict [];
                           modules_shared := false |}; disk := d |}).
  assert (Hdefault : fst (_create_default_config w0) = Ok tt ->
                     reads_back (JObj default_config) ->
                     in_sync (snd (_create_default_config w0))).
  { intros Hok Hcodec.
    destruct (is_empty (dirname p)) eqn:Hdir.
    - unfold _create_default_config, bind, update, modify in Hok. simpl in Hok.
      rewrite save_config_bare in Hok by exact Hdir. discriminate Hok.
    - rewrite (create_default_config_ok w0 Hdir). simpl. split.
      + eexists. split; [apply lookup_insert_eq | exact Hcodec].
      + reflexivity. }
  destruct (d !! p) as [text|] eqn:Hfile; [|exact Hdefault].
  destruct (json_load text) as [[| | | | | |doc]|] eqn:Hparse;
    try exact Hdefault; try discriminate.
  intros _ _. simpl. split.
  - exists text. split; [exact Hfile|]. rewrite Hparse. f_equal. f_equal.
    unfold document; simpl.
    destruct (doc !! "modules") as [colors|] eqn:Hcolors; simpl; [|reflexivity].
    symmetry. apply insert_id, Hcolors.
  - unfold document; simpl.
    destruct (doc !! "modules") as [colors|] eqn:Hcolors; simpl.
    + rewrite lookup_insert_eq. reflexivity.
    + rewrite Hcolors. reflexivity.
Qed.

(** A restart ([reset_color_config], then [get_color_config] with the path
    of the store) of a store that is in sync builds a store with the same
    document, the same module colours and the same path, and writes
    nothing. *)
Theorem restart_keeps_store path w :
  in_sync w ->
  or_else path DEFAULT_CONFIG_PATH = config_path (self w) ->
  let restarted :=
    (reset_color_config ;; get_color_config path)%py
      {| _color_config_instance := Some (self w); files_on_disk := disk w |} in
  fst restarted = Ok tt /\
  files_on_disk (snd restarted) = disk w /\
  exists c,
    _color_config_instance (snd restarted) = Some c /\
    document c = document (self w) /\
    module_colors c = module_colors (self w) /\
    config_path c = config_path (self w).
Proof.
  intros [(text & Hfile & Hparse) Hcolors] Hpath restarted.
  unfold restarted, bind, reset_color_config, modify, get_color_config, __init__. simpl.
  rewrite load_config_unfold. unfold load_config_cases. simpl.
  rewrite Hpath, Hfile, Hparse. simpl.
  repeat split. eexists. split; [reflexivity|]. simpl.
  repeat split; [|symmetry; exact Hcolors].
  unfold document at 1; simpl.
  destruct (document (self w) !! "modules") as [colors|] eqn:Hmodules; simpl; [|reflexivity].
  apply insert_id, Hmodules.
Qed.

(** With [str] defaults, [register_module_any] is [register_module]. *)
Lemma register_module_any_str module_name default_bg default_fg :
  register_module_any module_name (JStr default_bg) (JStr default_fg) =
  register_module module_name default_bg default_fg.
Proof. reflexivity. Qed.

Lemma module_themes_dict module_name :
  exists theme_colors, get module_themes module_name (dict []) = Ok (JObj theme_colors).
Proof.
  destruct (theme_colors_spec module_name "" "") as (theme_colors & Htheme & _).
  eauto.
Qed.

Lemma register_module_any_present w module_name default_bg default_fg d :
  module_colors (self w) = JObj d ->
  is_Some (d !! module_name) ->
  register_module_any module_name default_bg default_fg w = (Ok tt, w).
Proof.
  intros Hd Hpresent.
  destruct (module_themes_dict module_name) as (theme_colors & Htheme).
  unfold register_module_any, bind, lift, read, gets, ret.
  rewrite Htheme. simpl. rewrite Hd. simpl.
  rewrite bool_decide_eq_true_2 by exact Hpresent. reflexivity.
Qed.

Lemma register_module_any_absent w module_name default_bg default_fg d :
  module_colors (self w) = JObj d ->
  d !! module_name = None ->
  exists pair,
    module_colors (self (snd (register_module_any module_name default_bg default_fg w))) =
      JObj (<[module_name := pair]> d).
Proof.
  intros Hd Hfresh.
  destruct (module_themes_dict module_name) as (theme_colors & Htheme).
  unfold register_module_any, bind, lift, read, gets, update, modify.
  rewrite Htheme. simpl. rewrite Hd. simpl.
  rewrite bool_decide_eq_false_2 by (rewrite Hfresh; intros [? ?]; discriminate).
  rewrite save_config_colors. simpl. eauto.
Qed.

(** One turn of the registration loop keeps the entries there are and, for
    a named module, leaves one for its name. *)
Lemma register_one m d w :
  module_colors (self w) = JObj d ->
  let body :=
    match named m with
    | Some module_name =>
        register_module_any module_name
          (from_option id (JStr "#ffffff") (attributes m !! "bg_color"))
          (from_option id (JStr "#000000") (attributes m !! "fg_color"))
    | None => ret tt
    end in
  exists d',
    module_colors (self (snd (body w))) = JObj d' /\ d ⊆ d' /\
    (forall module_name, named m = Some module_name -> is_Some (d' !! module_name)) /\
    (d' = d -> body w = (Ok tt, w)).
Proof.
  intros Hd body. unfold body.
  destruct (named m) as [module_name|]; simpl.
  2:{ exists d. repeat split; auto. discriminate. }
  destruct (d !! module_name) as [entry|] eqn:Hlookup.
  - rewrite (register_module_any_present w _ _ _ d Hd) by eauto.
    exists d. repeat split; auto. intros ? [= <-]. eauto.
  - destruct (register_module_any_absent w module_name
                (from_option id (JStr "#ffffff") (attributes m !! "bg_color"))
                (from_option id (JStr "#000000") (attributes m !! "fg_color")) d Hd Hlookup)
      as (pair & Hcolors).
    exists (<[module_name := pair]> d). repeat split.
    + exact Hcolors.
    + apply insert_subseteq, Hlookup.
    + intros ? [= <-]. rewrite lookup_insert_eq. eauto.
    + intros Heq. apply (f_equal (fun x => x !! module_name)) in Heq.
      rewrite lookup_insert_eq, Hlookup in Heq. discriminate.
Qed.

Lemma register_all modules :
  forall d w,
    module_colors (self w) = JObj d ->
    exists d',
      module_colors (self (snd (_register_modules_with_color_config modules w))) = JObj d' /\
      d ⊆ d' /\
      (fst (_register_modules_with_color_config modules w) = Ok tt ->
       forall m module_name, m ∈ modules -> named m = Some module_name ->
         is_Some (d' !! module_name)).
Proof.
  unfold _register_modules_with_color_config.
  induction modules as [|m rest IH]; intros d w Hd; simpl.
  - exists d. repeat split; auto. intros _ m ? Hin. inversion Hin.
  - destruct (register_one m d w Hd) as (d1 & Hd1 & Hsub1 & Hnamed1 & _).
    cbv zeta in Hd1. unfold bind.
    match type of Hd1 with context [snd (?body w)] => destruct (body w) as [[[]|e] w1] end;
      simpl in *.
    + destruct (IH d1 w1 Hd1) as (d' & Hd' & Hsub' & Hnamed').
      exists d'. split; [exact Hd'|]. split; [etransitivity; eassumption|].
      intros Hok m' module_name Hin Hname.
      apply elem_of_cons in Hin as [-> | Hin].
      * destruct (Hnamed1 _ Hname) as [entry Hentry].
        exists entry. eapply lookup_weaken; eassumption.
      * eapply Hnamed'; eassumption.
    + exists d1. repeat split; auto. discriminate.
Qed.

(** Registration turns that find every name registered change nothing. *)
Lemma register_all_present modules :
  forall d w,
    module_colors (self w) = JObj d ->
    (forall m module_name, m ∈ modules -> named m = Some module_name ->
       is_Some (d !! module_name)) ->
    _register_modules_with_color_config modules w = (Ok tt, w).
Proof.
  unfold _register_modules_with_color_config.
  induction modules as [|m rest IH]; intros d w Hd Hall; simpl; [reflexivity|].
  unfold bind.
  assert (Hfirst : match named m with
                   | Some module_name =>
                       register_module_any module_name
                         (from_option id (JStr "#ffffff") (attributes m !! "bg_color"))
                         (from_option id (JStr "#000000") (attributes m !! "fg_color"))
                   | None => ret tt
                   end w = (Ok tt, w)).
  { destruct (named m) as [module_name|] eqn:Hname; [|reflexivity].
    apply (register_module_any_present w _ _ _ d Hd).
    apply (Hall m); [left | exact Hname]. }
  rewrite Hfirst. apply (IH d w Hd).
  intros m' module_name Hin. apply Hall. right. exact Hin.
Qed.

(** [_register_modules_with_color_config], the loop that [App] runs at
    start and at every [register_module]: it keeps every entry that the
    store holds (colours that the user has set survive it); where it returns
    normally every named module has an entry, and running it again returns
    normally and changes neither the store nor the files. *)
Theorem registration_is_idempotent modules d w :
  module_colors (self w) = JObj d ->
  let w1 := snd (_register_modules_with_color_config modules w) in
  exists d1,
    module_colors (self w1) = JObj d1 /\
    (forall module_name entry, d !! module_name = Some entry -> d1 !! module_name = Some entry) /\
    (fst (_register_modules_with_color_config modules w) = Ok tt ->
     (forall m module_name, m ∈ modules -> named m = Some module_name ->
        is_Some (d1 !! module_name)) /\
     _register_modules_with_color_config modules w1 = (Ok tt, w1)).
Proof.
  intros Hd w1.
  destruct (register_all modules d w Hd) as (d1 & Hd1 & Hsub & Hnamed).
  fold w1 in Hd1. exists d1. split; [exact Hd1|]. split.
  - intros module_name entry Hentry. eapply lookup_weaken; eassumption.
  - intros Hok. split; [exact (Hnamed Hok)|].
    apply (register_all_present modules d1 w1 Hd1), Hnamed, Hok.
Qed.

End StoreApiProperties.

(* ===================================================================== *)
(** ** More on the repository scan                                        *)
(* ===================================================================== *)

Section ScanMore.
Import Py Git ScanWording.
Context (t : tree).

Lemma walk_snoc keep chain :
  forall p item q,
    walk keep t p (chain ++ [item]) = Some q ->
    exists parent names,
      walk keep t p chain = Some parent /\
      t !! parent = Some (Dir names) /\ item ∈ names /\ keep item = true /\
      isdir t q = true /\ q = join parent item.
Proof.
  induction chain as [|first rest IH]; intros p item q Hwalk.
  - simpl app in Hwalk.
    apply walk_cons_inv in Hwalk as (names & Hp & Hin & Hkeep & Hdir & Hwalk).
    simpl in Hwalk. injection Hwalk as <-.
    exists p, names. repeat split; auto.
  - simpl app in Hwalk.
    apply walk_cons_inv in Hwalk as (names & Hp & Hin & Hkeep & Hdir & Hwalk).
    destruct (IH _ _ _ Hwalk) as (parent & names' & Hparent & Hrest).
    exists parent, names'. split; [|exact Hrest].
    simpl. rewrite Hp, bool_decide_eq_true_2, Hkeep, Hdir by exact Hin. exact Hparent.
Qed.

(** Every element of the answer of a scan was come across by the search. *)
Lemma scan_discovered run root_path rs r :
  _find_all_git_repositories t run root_path = Ok rs ->
  r ∈ rs ->
  discovered t run 0 root_path r.
Proof.
  intros Hrs Hr.
  destruct (isdir t root_path) eqn:Hdir.
  2:{ pose proof (find_all_not_a_directory t run root_path Hdir) as Hraise.
      rewrite Hrs in Hraise. discriminate. }
  destruct (find_all_spec t run root_path Hdir) as (rs' & Hrs' & Hall & _).
  assert (rs' = rs) as -> by congruence.
  rewrite Forall_forall in Hall. apply Hall, Hr.
Qed.

(** What the scan records of a repository: its path is the path of a
    directory it has listed, at most three levels below the root, joined
    with its name, which that directory lists; it holds a [.git] directory;
    and its branch is what the branch lookup answers for its path. *)
Theorem scan_records run root_path rs r :
  _find_all_git_repositories t run root_path = Ok rs ->
  r ∈ rs ->
  branch r = _get_branch_name run (path r) /\
  marked t (path r) = true /\
  exists parents parent names,
    (length parents <= 3)%nat /\
    walk not_hidden t root_path parents = Some parent /\
    t !! parent = Some (Dir names) /\ name r ∈ names /\
    path r = join parent (name r).
Proof.
  intros Hrs Hr.
  destruct (scan_discovered run root_path rs r Hrs Hr)
    as (parents & Hdepth & Hwalk & Hmarked & Hbranch).
  apply walk_snoc in Hwalk as (parent & names & Hparent & Hnames & Hin & _ & _ & Hpath).
  repeat split; auto.
  exists parents, parent, names. repeat split; auto.
Qed.

(** *** The places found do not depend on [git] *)

Lemma agree_ret {A} (x : A) : agree (ret x) (ret x).
Proof. intros a1 a2 Hsame. split; [reflexivity | exact Hsame]. Qed.

Lemma agree_raise {A} e : agree (@raise found A e) (raise e).
Proof. intros a1 a2 Hsame. split; [reflexivity | exact Hsame]. Qed.

Lemma agree_lift {A} (r : result A) : agree (lift r) (lift r).
Proof. intros a1 a2 Hsame. split; [reflexivity | exact Hsame]. Qed.

Lemma agree_bind {A B} (m1 m2 : M found A) (k1 k2 : A -> M found B) :
  agree m1 m2 -> (forall x, agree (k1 x) (k2 x)) -> agree (bind m1 k1) (bind m2 k2).
Proof.
  intros Hm Hk a1 a2 Hsame. unfold bind.
  destruct (Hm a1 a2 Hsame) as [Hresult Hplaces].
  destruct (m1 a1) as [[x|e] b1], (m2 a2) as [[x'|e'] b2]; simpl in *;
    try discriminate Hresult.
  - injection Hresult as <-. apply Hk, Hplaces.
  - injection Hresult as <-. split; [reflexivity | exact Hplaces].
Qed.

Lemma agree_try_except (body1 body2 handler1 handler2 : M found unit) handles :
  agree body1 body2 -> agree handler1 handler2 ->
  agree (try_except body1 handles handler1) (try_except body2 handles handler2).
Proof.
  intros Hbody Hhandler a1 a2 Hsame. unfold try_except.
  destruct (Hbody a1 a2 Hsame) as [Hresult Hplaces].
  destruct (body1 a1) as [[[]|e] b1], (body2 a2) as [[[]|e'] b2]; simpl in *;
    try discriminate Hresult.
  - split; [reflexivity | exact Hplaces].
  - injection Hresult as <-. destruct (handles e).
    + apply Hhandler, Hplaces.
    + split; [reflexivity | exact Hplaces].
Qed.

Lemma agree_for_each (body1 body2 : string -> M found unit) items :
  (forall item, agree (body1 item) (body2 item)) ->
  agree (for_each body1 items) (for_each body2 items).
Proof.
  intros Hbody. induction items as [|item rest IH]; simpl.
  - apply agree_ret.
  - apply agree_bind; auto.
Qed.

Lemma agree_gets {A} (f : found -> A) :
  (forall a1 a2, places a1 = places a2 -> f a1 = f a2) -> agree (gets f) (gets f).
Proof.
  intros Hf a1 a2 Hsame. unfold gets; simpl.
  rewrite (Hf a1 a2 Hsame). split; [reflexivity | exact Hsame].
Qed.

Lemma agree_modify (g1 g2 : found -> found) :
  (forall a1 a2, places a1 = places a2 -> places (g1 a1) = places (g2 a2)) ->
  agree (modify g1) (modify g2).
Proof. intros Hg a1 a2 Hsame. unfold modify; simpl. split; [reflexivity | apply Hg, Hsame]. Qed.

Lemma agree_visit run1 run2 search1 search2 p item :
  (forall p', agree (search1 p') (search2 p')) ->
  agree (visit t run1 search1 p item) (visit t run2 search2 p item).
Proof.
  intros Hsearch. unfold visit.
  destruct (startswith "." item); [apply agree_ret|].
  destruct (isdir t (join p item)); [|apply agree_ret].
  cbv zeta. apply agree_bind.
  { apply agree_gets. intros a1 a2 Hsame. unfold places in Hsame.
    injection Hsame as _ Hpaths. rewrite Hpaths. reflexivity. }
  intros seen. apply agree_bind; [|intros []; apply Hsearch].
  destruct (isdir t (join (join p item) ".git") && negb seen); [|apply agree_ret].
  apply agree_bind; [|intros []]; apply agree_modify; intros a1 a2 Hsame;
    unfold places in *; injection Hsame as Hrepos Hpaths; simpl.
  - rewrite Hrepos, Hpaths. reflexivity.
  - rewrite !fmap_app, Hrepos, Hpaths. reflexivity.
Qed.

Lemma agree_search_directory run1 run2 fuel :
  forall p depth,
    agree (search_directory t run1 fuel p depth) (search_directory t run2 fuel p depth).
Proof.
  induction fuel as [|fuel IH]; intros p depth; simpl.
  - apply agree_raise.
  - destruct (3 <? depth)%nat; [apply agree_ret|].
    apply agree_try_except; [|apply agree_ret].
    apply agree_bind; [apply agree_lift|].
    intros items. apply agree_for_each. intros item.
    apply agree_visit. intros p'. apply IH.
Qed.

(** Which repositories a scan finds, in which order and under which names,
    does not depend on what [git] answers: two runners give the same
    outcome, and the same list of paths and names; only the branches
    recorded may differ. *)
Theorem scan_places_independent_of_git run1 run2 root_path :
  answer_places (_find_all_git_repositories t run1 root_path) =
  answer_places (_find_all_git_repositories t run2 root_path).
Proof.
  unfold _find_all_git_repositories.
  destruct (agree_search_directory run1 run2 5 root_path 0 nothing_found nothing_found eq_refl)
    as [Hresult Hplaces].
  destruct (search_directory t run1 5 root_path 0 nothing_found) as [[[]|e] a1],
           (search_directory t run2 5 root_path 0 nothing_found) as [[[]|e'] a2];
    simpl in *; try discriminate Hresult.
  - unfold places in Hplaces. injection Hplaces as Hrepos _. rewrite Hrepos. reflexivity.
  - congruence.
Qed.


End ScanMore.


(* ===================================================================== *)
(** ** The Apply button of the colour panel                               *)
(* ===================================================================== *)

Section KeyProperties.
Import Py Panel.

Lemma split_not_nil s : split s <> [].
Proof.
  destruct s as [|c rest]; simpl; [discriminate|].
  destruct (Ascii.eqb c underscore); [discriminate|].
  destruct (split rest); discriminate.
Qed.

(** No part of a split has an underscore. *)
Lemma split_parts_plain s : Forall (fun part => has_underscore part = false) (split s).
Proof.
  induction s as [|c rest IH]; simpl.
  - repeat constructor.
  - destruct (Ascii.eqb c underscore) eqn:Hc.
    + constructor; [reflexivity | exact IH].
    + destruct (split rest) as [|part parts].
      * repeat constructor. simpl. rewrite Hc. reflexivity.
      * inversion IH as [|? ? Hpart Hparts]; subst.
        constructor; [|exact Hparts]. simpl. rewrite Hc. exact Hpart.
Qed.

Lemma but_last_snoc {A} (l : list A) x : but_last (l ++ [x]) = l.
Proof.
  unfold but_last. rewrite length_app. simpl.
  replace (length l + 1 - 1)%nat with (length l) by lia.
  apply take_app_length.
Qed.

Lemma last_only_snoc {A} (l : list A) x : last_only (l ++ [x]) = [x].
Proof.
  unfold last_only. rewrite length_app. simpl.
  replace (length l + 1 - 1)%nat with (length l) by lia.
  apply drop_app_length.
Qed.

Lemma split_snoc s : exists parts part, split s = (parts ++ [part])%list.
Proof.
  destruct (split s) as [|p ps] eqn:Hsplit using rev_ind.
  - destruct (split_not_nil s Hsplit).
  - eauto.
Qed.

(** The attribute that [_apply_colors] takes from a key has no
    underscore. *)
Lemma parse_key_attr_plain key : has_underscore (snd (parse_key key)) = false.
Proof.
  unfold parse_key. cbv zeta. simpl.
  pose proof (split_parts_plain key) as Hplain.
  destruct (split_snoc key) as (parts & part & Hsplit).
  rewrite Hsplit in *. rewrite last_only_snoc. simpl.
  apply Forall_app in Hplain as [_ Hlast]. inversion Hlast; assumption.
Qed.

Lemma split_app a b :
  split (a +:+ String underscore b) = (split a ++ split b)%list.
Proof.
  induction a as [|c a IH]; simpl.
  - reflexivity.
  - destruct (Ascii.eqb c underscore).
    + rewrite IH. reflexivity.
    + rewrite IH. destruct (split a) as [|part parts] eqn:Hsplit.
      * destruct (split_not_nil a Hsplit).
      * reflexivity.
Qed.

Lemma split_plain b : has_underscore b = false -> split b = [b].
Proof.
  induction b as [|c b IH]; simpl; [reflexivity|].
  intros Hplain. apply orb_false_iff in Hplain as [Hc Hb].
  rewrite Hc, (IH Hb). reflexivity.
Qed.

Lemma concat_split a : String.concat "_" (split a) = a.
Proof.
  induction a as [|c a IH]; simpl; [reflexivity|].
  destruct (Ascii.eqb c underscore) eqn:Hc.
  - apply Ascii.eqb_eq in Hc as ->.
    destruct (split a) as [|part parts] eqn:Hsplit.
    + destruct (split_not_nil a Hsplit).
    + simpl in *. rewrite IH. reflexivity.
  - destruct (split a) as [|part parts] eqn:Hsplit.
    + destruct (split_not_nil a Hsplit).
    + simpl in *. destruct parts; simpl in *; rewrite <- IH; reflexivity.
Qed.

(** A key is taken apart at its last underscore. *)
Lemma parse_key_app a b :
  has_underscore b = false ->
  parse_key (a +:+ String underscore b) = (a, b).
Proof.
  intros Hplain. unfold parse_key. cbv zeta.
  rewrite split_app, (split_plain b Hplain), but_last_snoc, last_only_snoc.
  rewrite concat_split. reflexivity.
Qed.

Lemma has_underscore_app a b :
  has_underscore (a +:+ b) = has_underscore a || has_underscore b.
Proof.
  induction a as [|c a IH]; simpl; [reflexivity|].
  rewrite IH. apply orb_assoc.
Qed.

Lemma append_assoc (a b c : string) : (a +:+ b) +:+ c = a +:+ (b +:+ c).
Proof.
  induction a as [|x a IH]; [reflexivity|].
  change (String x ((a +:+ b) +:+ c) = String x (a +:+ (b +:+ c))).
  rewrite IH. reflexivity.
Qed.

Lemma without_prefix_underscore p s rest :
  without_prefix p s = Some rest -> has_underscore p = true -> has_underscore s = true.
Proof.
  revert s. induction p as [|a p IH]; intros s; simpl; [discriminate 2|].
  destruct s as [|b s]; [discriminate|].
  destruct (Ascii.eqb a b) eqn:Hab; [|discriminate].
  apply Ascii.eqb_eq in Hab as ->. simpl.
  intros Hrest Hp. destruct (Ascii.eqb b underscore); [reflexivity|].
  simpl in *. eauto.
Qed.

(** [replace("window_", "")] leaves a text without underscore as it is. *)
Lemma replace_plain s :
  has_underscore s = false -> replace "window_" "" s = s.
Proof.
  unfold replace. generalize (String.length s) as fuel.
  intros fuel. revert s. induction fuel as [|fuel IH]; intros s Hplain.
  - destruct s; reflexivity.
  - destruct s as [|c rest]; [reflexivity|].
    cbn [replace_upto].
    destruct (without_prefix "window_" (String c rest)) as [rest'|] eqn:Hprefix.
    + apply without_prefix_underscore in Hprefix; [|reflexivity]. congruence.
    + simpl in Hplain. apply orb_false_iff in Hplain as [_ Hrest].
      rewrite (IH rest Hrest). reflexivity.
Qed.

End KeyProperties.

Section PanelProperties.
Import Py Store Wording StoreApi Panel.
Context `{Host}.

(** *** What the calls on the store leave as it is *)

Lemma set_module_color_unwritable module_name color_type color_value auto_save w :
  entry_writable module_name (module_colors (self w)) = false ->
  snd (set_module_color module_name color_type color_value auto_save w) = w.
Proof.
  intros Hentry.
  unfold set_module_color, bind, read, gets, lift, update, modify, ret; simpl.
  destruct (module_colors (self w)) as [| | | | s|l|d] eqn:Hcolors; simpl in *;
    try reflexivity.
  - destruct (str_contains module_name s); simpl; rewrite ?Hcolors; reflexivity.
  - destruct (existsb (eq_str module_name) l); simpl; rewrite ?Hcolors; reflexivity.
  - destruct (d !! module_name) as [entry|] eqn:Hlookup; [|discriminate Hentry].
    rewrite bool_decide_eq_true_2 by eauto. simpl.
    rewrite Hcolors. simpl. rewrite Hlookup.
    destruct entry; try discriminate Hentry; reflexivity.
Qed.

(** [set_module_color] leaves every other channel as it is, whatever the
    store holds. *)
Lemma set_module_color_channel module_name color_type color_value auto_save
    module_name' color_type' w :
  color_type' <> color_type ->
  fst (get_module_color module_name' color_type'
         (snd (set_module_color module_name color_type color_value auto_save w))) =
  fst (get_module_color module_name' color_type' w).
Proof.
  intros Hother.
  destruct (entry_writable module_name (module_colors (self w))) eqn:Hentry.
  2:{ rewrite set_module_color_unwritable by exact Hentry. reflexivity. }
  destruct (module_colors (self w)) as [| | | | | |d] eqn:Hd; try discriminate Hentry.
  pose proof (set_module_color_colors w module_name color_type color_value auto_save d Hd Hentry)
    as Hcolors.
  rewrite (get_module_color_dict _ _ _ _ Hcolors), (get_module_color_dict _ _ _ _ Hd). simpl.
  destruct (decide (module_name' = module_name)) as [-> | Hname].
  - rewrite lookup_insert_eq. simpl.
    rewrite lookup_insert_ne by congruence.
    unfold entry_of. simpl in Hentry.
    destruct (d !! module_name) as [[]|]; try discriminate Hentry; reflexivity.
  - rewrite lookup_insert_ne by congruence. reflexivity.
Qed.

Lemma get_module_color_colors module_name color_type w w' :
  module_colors (self w') = module_colors (self w) ->
  fst (get_module_color module_name color_type w') =
  fst (get_module_color module_name color_type w).
Proof.
  intros Hcolors. unfold get_module_color, bind, read, gets, lift; simpl.
  rewrite Hcolors.
  destruct (get (module_colors (self w)) module_name (dict [])); reflexivity.
Qed.

Lemma set_window_color_colors color_type color_value auto_save :
  unchanged (fun w => module_colors (self w)) (set_window_color color_type color_value auto_save).
Proof.
  unfold set_window_color, config_item, read, update. unchanged_steps.
  apply save_config_colors.
Qed.

Lemma set_window_color_unwritable color_type color_value auto_save w :
  item_writable "window" (self w) = false ->
  snd (set_window_color color_type color_value auto_save w) = w.
Proof.
  unfold item_writable. intros Hwritable.
  unfold set_window_color, config_item, bind, read, gets, lift, update, modify, ret; simpl.
  destruct (document (self w) !! "window") as [window|] eqn:Hwindow; [|discriminate].
  simpl. rewrite Hwindow. destruct window; try discriminate Hwritable; reflexivity.
Qed.

(** What [get_window_colors] answers is read off the document. *)
Lemma window_channel_document k w w' :
  document (self w') !! "window" = document (self w) !! "window" ->
  window_channel k w' = window_channel k w.
Proof.
  intros Hwindow. unfold window_channel, get_window_colors, bind, read, gets, lift; simpl.
  rewrite Hwindow.
  destruct (copy (from_option id default_window (document (self w) !! "window")));
    reflexivity.
Qed.

(** [set_window_color] leaves every other channel of the window as it is,
    whatever the store holds. *)
Lemma set_window_color_channel color_type color_value auto_save k w :
  k <> color_type ->
  window_channel k (snd (set_window_color color_type color_value auto_save w)) =
  window_channel k w.
Proof.
  intros Hother.
  destruct (item_writable "window" (self w)) eqn:Hwritable.
  2:{ rewrite set_window_color_unwritable by exact Hwritable. reflexivity. }
  destruct (set_window_color_window color_type color_value auto_save w Hwritable)
    as [Hwindow _].
  unfold window_channel, get_window_colors, bind, read, gets, lift. simpl.
  rewrite Hwindow. simpl. rewrite lookup_insert_ne by congruence.
  unfold dict_item, item_writable in *.
  destruct (document (self w) !! "window") as [window|]; simpl.
  - destruct window; try discriminate Hwritable. reflexivity.
  - reflexivity.
Qed.

Lemma set_module_color_window module_name color_type color_value auto_save k w :
  window_channel k (snd (set_module_color module_name color_type color_value auto_save w)) =
  window_channel k w.
Proof.
  apply window_channel_document.
  rewrite !document_lookup_ne by discriminate.
  revert w.
  change (unchanged (item "window")
            (set_module_color module_name color_type color_value auto_save)).
  unfold set_module_color, read. unchanged_steps;
    try (apply save_config_item; discriminate);
    apply update_item; intros c; reflexivity.
Qed.

(** *** The loop of [_apply_colors] *)

Lemma unchanged_on_color_config {A B} (g : World -> B) (m : M World A) :
  unchanged g m -> unchanged (fun a => g (color_config a)) (on_color_config m).
Proof.
  intros Hm a. unfold on_color_config. specialize (Hm (color_config a)).
  destruct (m (color_config a)) as [r w]. exact Hm.
Qed.

Lemma unchanged_beside_color_config {A B} (g : App -> B) (m : M World A) :
  (forall a w, g {| color_config := w; modules := modules a; objects := objects a;
                    active_module := active_module a |} = g a) ->
  unchanged g (on_color_config m).
Proof.
  intros Hg a. unfold on_color_config.
  destruct (m (color_config a)) as [r w]. apply Hg.
Qed.

Lemma apply_colors_to_module_world m : unchanged id (apply_colors_to_module m).
Proof.
  unfold apply_colors_to_module, get_module_colors, read.
  destruct (named m); unchanged_steps.
Qed.

Lemma unchanged_id {S A B} (g : S -> B) (m : M S A) :
  unchanged id m -> unchanged g m.
Proof. intros Hm s. unfold id in Hm. rewrite (Hm s). reflexivity. Qed.

Lemma apply_colors_to_module_store {B} (g : World -> B) l :
  unchanged (fun a => g (color_config a)) (_apply_colors_to_module l).
Proof.
  unfold _apply_colors_to_module.
  apply unchanged_bind; [apply unchanged_gets|intros module].
  apply unchanged_bind.
  - apply unchanged_on_color_config, unchanged_id, apply_colors_to_module_world.
  - intros module'. apply unchanged_modify. intros a. reflexivity.
Qed.

(** What the two setters leave of the store where the channel has no
    underscore, [_apply_colors] leaves too. *)
Lemma apply_colors_store {B} (g : World -> B) color_vars :
  (forall color_type value,
     has_underscore color_type = false ->
     unchanged g (set_window_color color_type value true)) ->
  (forall module_name color_attr value,
     has_underscore color_attr = false ->
     unchanged g (set_module_color module_name color_attr value true)) ->
  unchanged (fun a => g (color_config a)) (_apply_colors color_vars).
Proof.
  intros Hwindow Hmodule. unfold _apply_colors.
  apply unchanged_bind.
  - apply unchanged_for_in. intros [key value].
    unfold apply_color_var. cbv zeta. cbn [fst snd].
    pose proof (parse_key_attr_plain key) as Hplain.
    destruct (parse_key key) as [module_name color_attr]. cbn [fst snd] in *.
    destruct (String.eqb module_name "window").
    + apply unchanged_on_color_config, Hwindow.
      rewrite replace_plain; exact Hplain.
    + apply unchanged_bind; [apply unchanged_gets|intros listed].
      apply unchanged_for_in. intros l. unfold apply_to_module.
      apply unchanged_bind; [apply unchanged_gets|intros module].
      destruct (bool_decide (resolved_name module = Some module_name));
        [|apply unchanged_ret].
      apply unchanged_bind; [apply unchanged_modify; intros a; reflexivity|intros []].
      apply unchanged_on_color_config, Hmodule, Hplain.
  - intros []. apply unchanged_bind; [apply unchanged_gets|intros [l|]].
    + apply apply_colors_to_module_store.
    + apply unchanged_ret.
Qed.

Lemma setattr_other k color_attr value m :
  has_underscore k = true -> has_underscore color_attr = false ->
  attributes (setattr color_attr value m) !! k = attributes m !! k.
Proof.
  intros Hk Hattr. unfold setattr.
  destruct (String.eqb color_attr "name"); simpl; [reflexivity|].
  apply lookup_insert_ne. congruence.
Qed.

Lemma put_object_other l l' m a :
  l <> l' -> objects (put_object l' m a) l = objects a l.
Proof.
  intros Hl. simpl. destruct (Nat.eqb l l') eqn:Heq; [|reflexivity].
  apply Nat.eqb_eq in Heq. contradiction.
Qed.

Lemma apply_to_module_attributes module_name color_attr value l' l k :
  has_underscore k = true -> has_underscore color_attr = false ->
  unchanged (fun a => (active_module a, attributes (objects a l) !! k))
    (apply_to_module module_name color_attr value l').
Proof.
  intros Hk Hplain a.
  unfold apply_to_module, bind, gets, modify, on_color_config, ret. cbn [fst snd].
  destruct (bool_decide (resolved_name (objects a l') = Some module_name));
    [|reflexivity].
  cbn [fst snd].
  destruct (set_module_color module_name color_attr value true _) as [[[]|e] w];
    cbn [fst snd active_module objects put_object]; f_equal;
    (destruct (Nat.eqb l l') eqn:Heq; [|reflexivity]);
    apply Nat.eqb_eq in Heq as ->; apply setattr_other; assumption.
Qed.

Lemma apply_loop_attributes color_vars l k :
  has_underscore k = true ->
  unchanged (fun a => (active_module a, attributes (objects a l) !! k))
    (for_in apply_color_var color_vars).
Proof.
  intros Hk. apply unchanged_for_in. intros [key value].
  unfold apply_color_var. cbv zeta. cbn [fst snd].
  pose proof (parse_key_attr_plain key) as Hplain.
  destruct (parse_key key) as [module_name color_attr]. cbn [fst snd] in *.
  destruct (String.eqb module_name "window").
  - apply unchanged_beside_color_config. reflexivity.
  - apply unchanged_bind; [apply unchanged_gets|intros listed].
    apply unchanged_for_in. intros l'.
    apply apply_to_module_attributes; assumption.
Qed.

Lemma apply_colors_to_module_objects l' l a :
  l <> l' ->
  objects (snd (_apply_colors_to_module l' a)) l = objects a l.
Proof.
  intros Hl. unfold _apply_colors_to_module, bind, gets, modify, on_color_config.
  cbn [fst snd].
  destruct (apply_colors_to_module (objects a l') (color_config a)) as [[m'|e] w];
    cbn [fst snd objects put_object]; [|reflexivity].
  destruct (Nat.eqb l l') eqn:Heq; [|reflexivity].
  apply Nat.eqb_eq in Heq. contradiction.
Qed.

(** Whatever the entries of the panel hold, Apply changes no channel whose
    name has an underscore, so neither ["bg_color"] nor ["fg_color"]: what
    [get_module_color] answers for it is as before for every module, what
    [get_window_colors] holds under it is as before, and so is the
    attribute of that name of every module object other than the active
    one, which [show_module] then colours from the store.  This holds
    whether [_apply_colors] returns or raises. *)
Theorem apply_keeps_underscored_channels color_vars a k :
  has_underscore k = true ->
  let a' := snd (_apply_colors color_vars a) in
  (forall module_name, module_color module_name k a' = module_color module_name k a) /\
  window_color k a' = window_color k a /\
  (forall l, active_module a <> Some l ->
     attributes (objects a' l) !! k = attributes (objects a l) !! k).
Proof.
  intros Hk a'. assert (Hne : forall color_type, has_underscore color_type = false ->
                                k <> color_type) by (intros ? ? ->; congruence).
  split; [|split].
  - intros module_name. unfold a'.
    apply (apply_colors_store (fun w => fst (get_module_color module_name k w))).
    + intros color_type value _ w.
      apply get_module_color_colors, set_window_color_colors.
    + intros module_name' color_attr value Hplain w.
      apply set_module_color_channel, Hne, Hplain.
  - unfold a'. apply (apply_colors_store (window_channel k)).
    + intros color_type value Hplain w. apply set_window_color_channel, Hne, Hplain.
    + intros module_name' color_attr value _ w. apply set_module_color_window.
  - intros l Hl. unfold a', _apply_colors, bind.
    pose proof (apply_loop_attributes color_vars l k Hk a) as Hloop.
    destruct (for_in apply_color_var color_vars a) as [[[]|e] a1]; cbn [fst snd] in *;
      injection Hloop as Hactive Hattrs; [|exact Hattrs].
    unfold gets. cbn [fst snd]. rewrite Hactive.
    destruct (active_module a) as [l'|]; [|exact Hattrs].
    rewrite apply_colors_to_module_objects by congruence. exact Hattrs.
Qed.

(** *** The keys that the panel makes *)

Lemma for_in_skips {S A} (body : A -> M S unit) (items : list A) s :
  Forall (fun x => body x s = (Ok tt, s)) items ->
  for_in body items s = (Ok tt, s).
Proof.
  induction 1 as [|x rest Hx _ IH]; simpl; [reflexivity|].
  unfold bind. rewrite Hx. exact IH.
Qed.

(** Every key of the panel names, to [_apply_colors], a module whose name
    has an underscore. *)
Lemma color_var_key_target listed key :
  key ∈ color_var_keys listed ->
  has_underscore (fst (parse_key key)) = true.
Proof.
  unfold color_var_keys. intros Hkey.
  apply elem_of_app in Hkey as [Hkey | Hkey].
  - apply list_elem_of_In in Hkey. simpl in Hkey.
    destruct Hkey as [<- | [<- | []]]; reflexivity.
  - apply list_elem_of_In, in_flat_map in Hkey as (m & _ & Hkey).
    destruct (named m); [|destruct Hkey].
    unfold entry_key in Hkey.
    destruct Hkey as [<- | [<- | []]].
    + change (shown_name m +:+ "_" +:+ "bg_color")
        with (shown_name m +:+ ("_bg" +:+ String underscore "color")).
      rewrite <- append_assoc, parse_key_app by reflexivity.
      simpl. rewrite has_underscore_app. apply orb_true_r.
    + change (shown_name m +:+ "_" +:+ "fg_color")
        with (shown_name m +:+ ("_fg" +:+ String underscore "color")).
      rewrite <- append_assoc, parse_key_app by reflexivity.
      simpl. rewrite has_underscore_app. apply orb_true_r.
Qed.

(** With the keys that [_populate_modules] makes, Apply saves nothing:
    where no module has an underscore in its name, the loop of
    [_apply_colors] calls neither setter of the store and assigns to no
    module, whatever the entries hold, and [_apply_colors] does only what
    [show_module] does for the active module. *)
Theorem apply_from_panel_saves_nothing color_vars a :
  Forall (fun l => plainly_named (objects a l) = true) (modules a) ->
  Forall (fun entry => fst entry ∈ color_var_keys (objects a <$> modules a)) color_vars ->
  _apply_colors color_vars a =
    match active_module a with
    | Some l => _apply_colors_to_module l a
    | None => (Ok tt, a)
    end.
Proof.
  intros Hplain Hkeys.
  assert (Hloop : for_in apply_color_var color_vars a = (Ok tt, a)).
  { apply for_in_skips. eapply Forall_impl; [exact Hkeys|].
    intros [key value] Hkey. cbn [fst] in Hkey.
    apply color_var_key_target in Hkey.
    unfold apply_color_var. cbv zeta. cbn [fst snd].
    destruct (parse_key key) as [module_name color_attr]. cbn [fst snd] in *.
    destruct (String.eqb module_name "window") eqn:Hwindow.
    { apply String.eqb_eq in Hwindow. subst. discriminate Hkey. }
    unfold bind at 1, gets. cbn [fst snd].
    apply for_in_skips. eapply Forall_impl; [exact Hplain|].
    intros l Hl. unfold apply_to_module, bind, gets. cbn [fst snd].
    rewrite bool_decide_eq_false_2; [reflexivity|].
    intros Hname. unfold plainly_named in Hl. rewrite Hname in Hl.
    rewrite Hkey in Hl. discriminate Hl. }
  unfold _apply_colors, bind. rewrite Hloop. unfold gets. cbn [fst snd].
  destruct (active_module a); reflexivity.
Qed.

End PanelProperties.


(* ===================================================================== *)
(** ** The saved tasks of the Git manager                                 *)
(* ===================================================================== *)

Section TasksProperties.
Import Py Git Tasks.
Context `{Host} (run : runner).

Lemma save_tasks_unfold m :
  _save_tasks m =
    (Ok tt,
     {| tasks := tasks m;
        disk := <[CONFIG_FILE := json_dump (tasks m)]> (disk m);
        directories := directories m |}).
Proof. reflexivity. Qed.

(** [_load_tasks], case by case. *)
Lemma load_tasks_unfold m :
  _load_tasks m =
    (Ok tt,
     match disk m !! CONFIG_FILE with
     | Some text => set_tasks (from_option id (JArr []) (json_load text)) m
     | None => m
     end).
Proof.
  unfold _load_tasks, bind, gets, try_except, read_file. simpl.
  destruct (disk m !! CONFIG_FILE) as [text|] eqn:Hfile; simpl; [|reflexivity].
  rewrite Hfile. destruct (json_load text); reflexivity.
Qed.

(** The tasks survive a restart: after [_save_tasks], a new object, which
    starts from an empty list, loads the list that was saved, where the
    codec reads it back; the save touches no other file. *)
Theorem tasks_survive_restart m :
  loads_back (tasks m) ->
  let saved := snd (_save_tasks m) in
  _load_tasks (set_tasks (JArr []) saved) = (Ok tt, saved) /\
  tasks saved = tasks m /\
  forall p, p <> CONFIG_FILE -> disk saved !! p = disk m !! p.
Proof.
  intros Hcodec saved. unfold loads_back in Hcodec. unfold saved.
  rewrite save_tasks_unfold. simpl. split; [|split; [reflexivity|]].
  - rewrite load_tasks_unfold. simpl. rewrite lookup_insert_eq, Hcodec. reflexivity.
  - intros p Hp. apply lookup_insert_ne. congruence.
Qed.

(** [add_task] on entries that pass the checks of the dialog. *)
Lemma add_task_valid name_entry root_entry script_entry m :
  valid_entries m name_entry root_entry script_entry = true ->
  let name := strip name_entry in
  let root_path := strip root_entry in
  let script_path := strip script_entry in
  add_task run name_entry root_entry script_entry m =
    match _find_all_git_repositories (directories m) run root_path with
    | Raise e => (Raise e, m)
    | Ok [] =>
        (Ok (Warned "No Git Repository"
               ("No git repositories found in:" +:+ String (ascii_of_nat 10) root_path)), m)
    | Ok git_repos =>
        match tasks m with
        | JArr items =>
            let current := JArr (items ++ [task_data name root_path script_path git_repos]) in
            (Ok Added,
             {| tasks := current;
                disk := <[CONFIG_FILE := json_dump current]> (disk m);
                directories := directories m |})
        | _ => (Raise AttributeError, m)
        end
    end.
Proof.
  unfold valid_entries. intros Hvalid. cbv zeta.
  apply andb_true_iff in Hvalid as [Hvalid Hscript].
  apply andb_true_iff in Hvalid as [Hvalid Hroot].
  apply andb_true_iff in Hvalid as [Hname Hpath].
  apply negb_true_iff in Hname, Hpath.
  unfold add_task. rewrite Hname, Hpath.
  unfold bind at 1. unfold exists_ at 1, gets at 1. cbn [fst snd].
  rewrite Hroot. cbn [negb].
  unfold bind at 1. unfold exists_ at 1, gets at 1. cbn [fst snd].
  assert (Hgo : negb (is_empty (strip script_entry)) &&
                negb (bool_decide (is_Some (directories m !! strip script_entry))) = false).
  { apply orb_true_iff in Hscript as [-> | ->]; [reflexivity|]. apply andb_false_r. }
  rewrite Hgo.
  unfold bind at 1. unfold gets at 1. cbn [fst snd].
  unfold bind at 1, lift at 1.
  destruct (_find_all_git_repositories (directories m) run (strip root_entry))
    as [[|r rs]|e]; cbn [fst snd]; try reflexivity.
  unfold bind at 1. unfold gets at 1. cbn [fst snd].
  unfold bind at 1, lift at 1, append.
  destruct (tasks m); reflexivity.
Qed.

(** [add_task] on entries that the dialog rejects. *)
Lemma add_task_invalid name_entry root_entry script_entry m :
  valid_entries m name_entry root_entry script_entry = false ->
  exists message,
    add_task run name_entry root_entry script_entry m = (Ok (validation_error message), m).
Proof.
  unfold valid_entries, add_task. intros Hvalid.
  destruct (is_empty (strip name_entry)); [eexists; reflexivity|].
  destruct (is_empty (strip root_entry)); [eexists; reflexivity|].
  unfold bind at 1. unfold exists_ at 1, gets at 1. cbn [fst snd].
  destruct (bool_decide (is_Some (directories m !! strip root_entry)));
    [|eexists; reflexivity].
  cbn [negb andb] in *.
  unfold bind at 1. unfold exists_ at 1, gets at 1. cbn [fst snd].
  apply orb_false_iff in Hvalid as [-> ->]. eexists. reflexivity.
Qed.

(** Where [add_task] adds, it has checked the entries, the root is a
    directory and the scan has found at least one repository; the task
    list, which was a list, has grown at its end by one task that holds the
    trimmed entries and what the scan answered, every repository of it
    being a directory with a [.git] directory; and the tasks file holds
    the new list. *)
Theorem add_task_adds name_entry root_entry script_entry m :
  fst (add_task run name_entry root_entry script_entry m) = Ok Added ->
  let m' := snd (add_task run name_entry root_entry script_entry m) in
  let root_path := strip root_entry in
  exists items git_repos,
    valid_entries m name_entry root_entry script_entry = true /\
    isdir (directories m) root_path = true /\
    _find_all_git_repositories (directories m) run root_path = Ok git_repos /\
    git_repos <> [] /\
    Forall (fun r => marked (directories m) (path r) = true) git_repos /\
    tasks m = JArr items /\
    tasks m' =
      JArr (items ++ [task_data (strip name_entry) root_path (strip script_entry) git_repos]) /\
    disk m' = <[CONFIG_FILE := json_dump (tasks m')]> (disk m) /\
    directories m' = directories m.
Proof.
  intros Hadded m' root_path. unfold m'. clear m'.
  destruct (valid_entries m name_entry root_entry script_entry) eqn:Hvalid.
  2:{ destruct (add_task_invalid _ _ _ _ Hvalid) as [message Hwarned].
      rewrite Hwarned in Hadded. discriminate Hadded. }
  pose proof (add_task_valid _ _ _ _ Hvalid) as Hrun. cbv zeta in Hrun.
  fold root_path in Hrun. rewrite Hrun in *. clear Hrun.
  destruct (_find_all_git_repositories (directories m) run root_path)
    as [git_repos|e] eqn:Hscan; [|discriminate Hadded].
  destruct git_repos as [|r rs]; [discriminate Hadded|].
  destruct (tasks m) as [| | | | |items|] eqn:Htasks; try discriminate Hadded.
  exists items, (r :: rs). cbn [fst snd tasks disk directories].
  repeat split; try reflexivity.
  - destruct (isdir (directories m) root_path) eqn:Hdir; [reflexivity|].
    pose proof (find_all_not_a_directory (directories m) run root_path Hdir) as Hraise.
    rewrite Hscan in Hraise. discriminate Hraise.
  - discriminate.
  - apply Forall_forall. intros r' Hr'.
    destruct (scan_discovered (directories m) run root_path _ r' Hscan Hr')
      as (_ & _ & _ & Hmarked & _).
    exact Hmarked.
Qed.

(** Where [add_task] does not add, be it a warning or an exception, the
    task list and the files are as before. *)
Theorem add_task_all_or_nothing name_entry root_entry script_entry m :
  fst (add_task run name_entry root_entry script_entry m) <> Ok Added ->
  snd (add_task run name_entry root_entry script_entry m) = m.
Proof.
  intros Hnot.
  destruct (valid_entries m name_entry root_entry script_entry) eqn:Hvalid.
  2:{ destruct (add_task_invalid _ _ _ _ Hvalid) as [message ->]. reflexivity. }
  pose proof (add_task_valid _ _ _ _ Hvalid) as Hrun. cbv zeta in Hrun.
  rewrite Hrun in *. clear Hrun.
  destruct (_find_all_git_repositories (directories m) run (strip root_entry))
    as [[|r rs]|e]; try reflexivity.
  destruct (tasks m); try reflexivity.
  destruct Hnot. reflexivity.
Qed.

(** A root path that exists and is no directory passes the checks of the
    dialog, and the scan then raises: [add_task] ends with
    [NotADirectoryError] and no warning box, and adds nothing.  A
    directory that must not be listed gives the warning that no repository
    was found. *)
Theorem add_task_root_not_a_directory name_entry root_entry script_entry m :
  valid_entries m name_entry root_entry script_entry = true ->
  (directories m !! strip root_entry = Some File ->
   add_task run name_entry root_entry script_entry m = (Raise NotADirectoryError, m)) /\
  (directories m !! strip root_entry = Some Locked ->
   add_task run name_entry root_entry script_entry m =
     (Ok (Warned "No Git Repository"
            ("No git repositories found in:" +:+ String (ascii_of_nat 10) (strip root_entry))),
      m)).
Proof.
  intros Hvalid.
  pose proof (add_task_valid _ _ _ _ Hvalid) as Hrun. cbv zeta in Hrun.
  split; intros Hroot; rewrite Hrun;
    unfold _find_all_git_repositories; simpl;
    unfold try_except, bind, lift, listdir; rewrite Hroot; reflexivity.
Qed.

End TasksProperties.


(* ===================================================================== *)
(** ** The further properties on concrete inputs                          *)
(* ===================================================================== *)

Section StoreApiInstances.
Import Py Store Wording Fixtures StoreApi Samples.

Lemma mutation_frame_witness :
  touches (SetWindowColor "bg_color" "#222222") "settings" = false /\
  document (self (snd (@run reference_host (SetWindowColor "bg_color" "#222222") themed_world)))
    !! "settings" =
  document (self themed_world) !! "settings".
Proof.
  split; [reflexivity|].
  apply (@mutation_frame reference_host (SetWindowColor "bg_color" "#222222") "settings"
           themed_world).
  reflexivity.
Defined.

Lemma set_then_get_window_colors_witness :
  item_writable "window" (self themed_world) = true /\
  let w' := snd (@set_window_color reference_host "bg_color" "#222222" true themed_world) in
  get_window_colors w' =
    (Ok (JObj (<["bg_color" := JStr "#222222"]>
                 (dict_item "window" default_window_pair (self themed_world)))), w') /\
  module_colors (self w') = module_colors (self themed_world).
Proof.
  split; [reflexivity|].
  apply (@set_then_get_window_colors reference_host "bg_color" "#222222" true themed_world).
  reflexivity.
Defined.

Lemma update_then_get_settings_witness :
  item_writable "settings" (self themed_world) = true /\
  let settings : gmap string json := {["auto_save" := JBool false]} in
  let w' := snd (@update_settings reference_host settings themed_world) in
  let before := dict_item "settings" ∅ (self themed_world) in
  get_settings w' = (Ok (JObj (settings ∪ before)), w') /\
  (forall k, (settings ∪ before) !! k =
             match settings !! k with Some v => Some v | None => before !! k end) /\
  module_colors (self w') = module_colors (self themed_world).
Proof.
  split; [reflexivity|].
  apply (@update_then_get_settings reference_host {["auto_save" := JBool false]} themed_world).
  reflexivity.
Defined.

Lemma mutation_other_files_witness :
  "/tmp/ui/notes.txt" <> config_path (self themed_world) /\
  Store.disk (snd (@run reference_host ResetToDefaults themed_world)) !! "/tmp/ui/notes.txt" =
  Store.disk themed_world !! "/tmp/ui/notes.txt".
Proof.
  split; [discriminate|].
  apply (@mutation_other_files reference_host ResetToDefaults themed_world "/tmp/ui/notes.txt").
  discriminate.
Defined.

Lemma set_module_color_other_witness :
  entry_writable "Log" (module_colors (self themed_world)) = true /\
  ("Log" <> "Log" \/ "fg_color" <> "bg_color") /\
  let w' := snd (@set_module_color reference_host "Log" "bg_color" "#123456" true themed_world) in
  fst (get_module_color "Log" "fg_color" w') =
  fst (get_module_color "Log" "fg_color" themed_world).
Proof.
  split; [reflexivity|]. split; [right; discriminate|].
  apply (@set_module_color_other reference_host "Log" "bg_color" "#123456" true
           "Log" "fg_color" themed_world).
  - reflexivity.
  - right. discriminate.
Defined.

Lemma register_after_set_witness :
  module_colors (self themed_world) = JObj themed_colors /\
  entry_writable "Editor" (JObj themed_colors) = true /\
  let w1 := snd (@set_module_color reference_host "Editor" "bg_color" "#123456" true
                   themed_world) in
  @register_module reference_host "Editor" "#111111" "#eeeeee" w1 = (Ok tt, w1) /\
  module_colors (self w1) =
    JObj (<["Editor" := JObj (<["bg_color" := JStr "#123456"]> (entry_of "Editor" themed_colors))]>
            themed_colors) /\
  (themed_colors !! "Editor" = None ->
   forall color_type',
     fst (get_module_color "Editor" color_type' w1) =
     Ok (if decide (color_type' = "bg_color") then JStr "#123456" else JNull)).
Proof.
  split; [reflexivity|]. split; [reflexivity|].
  apply (@register_after_set reference_host "Editor" "bg_color" "#123456" true
           "#111111" "#eeeeee" themed_colors themed_world);
    reflexivity.
Defined.

Lemma apply_colors_to_module_spec_witness :
  module_colors (self themed_world) = JObj themed_colors /\
  named log_module = Some "Log" /\
  entry_writable "Log" (JObj themed_colors) = true /\
  apply_colors_to_module log_module themed_world =
    (Ok (match named log_module with
         | Some module_name => colored (entry_of module_name themed_colors) log_module
         | None => log_module
         end), themed_world).
Proof.
  split; [reflexivity|]. split; [reflexivity|]. split; [reflexivity|].
  apply (apply_colors_to_module_spec log_module themed_colors themed_world).
  - reflexivity.
  - intros module_name [= <-]. reflexivity.
Defined.

Lemma init_rejects_non_dict_witness :
  array_file !! or_else (Some "/tmp/ui/colors.json") (@DEFAULT_CONFIG_PATH reference_host) =
    Some "[]" /\
  @json_load reference_host "[]" = Some (JArr []) /\
  is_dict (JArr []) = false /\
  fst (@__init__ reference_host (Some "/tmp/ui/colors.json") array_file) = Raise AttributeError /\
  Store.disk (snd (@__init__ reference_host (Some "/tmp/ui/colors.json") array_file)) = array_file.
Proof.
  split; [reflexivity|]. split; [vm_compute; reflexivity|]. split; [reflexivity|].
  apply (@init_rejects_non_dict reference_host (Some "/tmp/ui/colors.json") "[]" (JArr [])
           array_file).
  - reflexivity.
  - vm_compute. reflexivity.
  - reflexivity.
Defined.

Lemma fresh_world_in_sync : @in_sync reference_host fresh_world.
Proof.
  split; [|reflexivity].
  exists (Codec.dump 0 (JObj default_config)). split; [reflexivity|].
  vm_compute. reflexivity.
Qed.

Lemma mutation_keeps_in_sync_witness :
  let mu := SetWindowColor "bg_color" "#222222" in
  @in_sync reference_host fresh_world /\
  fst (@run reference_host mu fresh_world) = Ok tt /\
  @reads_back reference_host (JObj (document (self (snd (@run reference_host mu fresh_world))))) /\
  @in_sync reference_host (snd (@run reference_host mu fresh_world)).
Proof.
  intros mu.
  split; [apply fresh_world_in_sync|].
  split; [vm_compute; reflexivity|].
  split; [vm_compute; reflexivity|].
  apply (@mutation_keeps_in_sync reference_host mu fresh_world).
  - apply fresh_world_in_sync.
  - vm_compute. reflexivity.
  - vm_compute. reflexivity.
Defined.

Lemma init_in_sync_witness :
  fst (@__init__ reference_host (Some "/tmp/ui/colors.json") ∅) = Ok tt /\
  @reads_back reference_host (JObj default_config) /\
  @in_sync reference_host (snd (@__init__ reference_host (Some "/tmp/ui/colors.json") ∅)).
Proof.
  split; [vm_compute; reflexivity|].
  split; [vm_compute; reflexivity|].
  apply (@init_in_sync reference_host (Some "/tmp/ui/colors.json") ∅).
  - vm_compute. reflexivity.
  - vm_compute. reflexivity.
Defined.

Lemma restart_keeps_store_witness :
  @in_sync reference_host fresh_world /\
  or_else (Some "/tmp/ui/colors.json") (@DEFAULT_CONFIG_PATH reference_host) =
    config_path (self fresh_world) /\
  let restarted :=
    (reset_color_config ;; @get_color_config reference_host (Some "/tmp/ui/colors.json"))%py
      {| _color_config_instance := Some (self fresh_world);
         files_on_disk := Store.disk fresh_world |} in
  fst restarted = Ok tt /\
  files_on_disk (snd restarted) = Store.disk fresh_world /\
  exists c,
    _color_config_instance (snd restarted) = Some c /\
    document c = document (self fresh_world) /\
    module_colors c = module_colors (self fresh_world) /\
    config_path c = config_path (self fresh_world).
Proof.
  split; [apply fresh_world_in_sync|]. split; [reflexivity|].
  apply (@restart_keeps_store reference_host (Some "/tmp/ui/colors.json") fresh_world).
  - apply fresh_world_in_sync.
  - reflexivity.
Defined.

Lemma registration_is_idempotent_witness :
  module_colors (self themed_world) = JObj themed_colors /\
  let listed := [log_module; editor_module] in
  let w1 := snd (@_register_modules_with_color_config reference_host listed themed_world) in
  exists d1,
    module_colors (self w1) = JObj d1 /\
    (forall module_name entry,
       themed_colors !! module_name = Some entry -> d1 !! module_name = Some entry) /\
    (fst (@_register_modules_with_color_config reference_host listed themed_world) = Ok tt ->
     (forall m module_name, m ∈ listed -> named m = Some module_name ->
        is_Some (d1 !! module_name)) /\
     @_register_modules_with_color_config reference_host listed w1 = (Ok tt, w1)).
Proof.
  split; [reflexivity|].
  apply (@registration_is_idempotent reference_host [log_module; editor_module]
           themed_colors themed_world).
  reflexivity.
Defined.

End StoreApiInstances.

Section ScanMoreInstances.
Import Py Git Fixtures ScanWording.

Lemma scan_records_witness :
  let r := {| path := "/w/app"; name := "app"; branch := "Unknown" |} in
  _find_all_git_repositories small_tree no_git "/w" = Ok [r] /\
  r ∈ [r] /\
  branch r = _get_branch_name no_git (path r) /\
  marked small_tree (path r) = true /\
  exists parents parent names,
    (length parents <= 3)%nat /\
    walk not_hidden small_tree "/w" parents = Some parent /\
    small_tree !! parent = Some (Dir names) /\ name r ∈ names /\
    path r = join parent (name r).
Proof.
  intros r.
  split; [apply scan_small_tree|].
  split; [apply list_elem_of_In; simpl; auto|].
  apply (scan_records small_tree no_git "/w" [r] r).
  - apply scan_small_tree.
  - apply list_elem_of_In. simpl. auto.
Defined.


End ScanMoreInstances.

Section PanelInstances.
Import Py Store Fixtures StoreApi Panel Samples.

Lemma apply_keeps_underscored_channels_witness :
  has_underscore "bg_color" = true /\
  let a' := snd (@_apply_colors reference_host direct_entries two_modules) in
  (forall module_name,
     module_color module_name "bg_color" a' = module_color module_name "bg_color" two_modules) /\
  window_color "bg_color" a' = window_color "bg_color" two_modules /\
  (forall l, active_module two_modules <> Some l ->
     attributes (objects a' l) !! "bg_color" = attributes (objects two_modules l) !! "bg_color").
Proof.
  split; [reflexivity|].
  apply (@apply_keeps_underscored_channels reference_host direct_entries two_modules "bg_color").
  reflexivity.
Defined.

Lemma apply_from_panel_saves_nothing_witness :
  Forall (fun l => plainly_named (objects two_modules l) = true) (modules two_modules) /\
  Forall (fun entry => fst entry ∈ color_var_keys (objects two_modules <$> modules two_modules))
    panel_entries /\
  @_apply_colors reference_host panel_entries two_modules =
    match active_module two_modules with
    | Some l => @_apply_colors_to_module reference_host l two_modules
    | None => (Ok tt, two_modules)
    end.
Proof.
  assert (Hplain : Forall (fun l => plainly_named (objects two_modules l) = true)
                     (modules two_modules)).
  { repeat constructor. }
  assert (Hkeys : Forall (fun entry => fst entry ∈
                            color_var_keys (objects two_modules <$> modules two_modules))
                    panel_entries).
  { repeat constructor; apply list_elem_of_In; simpl; auto. }
  split; [exact Hplain|]. split; [exact Hkeys|].
  apply (@apply_from_panel_saves_nothing reference_host panel_entries two_modules Hplain Hkeys).
Defined.

End PanelInstances.

Section TasksInstances.
Import Py Git Fixtures Tasks Samples.

Lemma tasks_survive_restart_witness :
  @loads_back tasks_host (tasks one_task) /\
  let saved := snd (@_save_tasks tasks_host one_task) in
  @_load_tasks tasks_host (set_tasks (JArr []) saved) = (Ok tt, saved) /\
  tasks saved = tasks one_task /\
  forall p, p <> @CONFIG_FILE tasks_host -> disk saved !! p = disk one_task !! p.
Proof.
  split; [vm_compute; reflexivity|].
  apply (@tasks_survive_restart tasks_host one_task).
  vm_compute. reflexivity.
Defined.

Lemma add_task_adds_witness :
  fst (@add_task tasks_host on_main " Work " "/w" "" no_tasks) = Ok Added /\
  let m' := snd (@add_task tasks_host on_main " Work " "/w" "" no_tasks) in
  let root_path := strip "/w" in
  exists items git_repos,
    valid_entries no_tasks " Work " "/w" "" = true /\
    isdir (directories no_tasks) root_path = true /\
    _find_all_git_repositories (directories no_tasks) on_main root_path = Ok git_repos /\
    git_repos <> [] /\
    Forall (fun r => marked (directories no_tasks) (path r) = true) git_repos /\
    tasks no_tasks = JArr items /\
    tasks m' = JArr (items ++ [task_data (strip " Work ") root_path (strip "") git_repos]) /\
    disk m' = <[@CONFIG_FILE tasks_host := @json_dump tasks_host (tasks m')]> (disk no_tasks) /\
    directories m' = directories no_tasks.
Proof.
  split; [vm_compute; reflexivity|].
  apply (@add_task_adds tasks_host on_main " Work " "/w" "" no_tasks).
  vm_compute. reflexivity.
Defined.

Lemma add_task_all_or_nothing_witness :
  fst (@add_task tasks_host on_main "  " "/w" "" no_tasks) <> Ok Added /\
  snd (@add_task tasks_host on_main "  " "/w" "" no_tasks) = no_tasks.
Proof.
  split; [discriminate|].
  apply (@add_task_all_or_nothing tasks_host on_main "  " "/w" "" no_tasks).
  discriminate.
Defined.

Lemma add_task_root_not_a_directory_witness :
  valid_entries notes_manager "Notes" "/r/notes.txt" "" = true /\
  (directories notes_manager !! strip "/r/notes.txt" = Some File ->
   @add_task tasks_host on_main "Notes" "/r/notes.txt" "" notes_manager =
     (Raise NotADirectoryError, notes_manager)) /\
  (directories notes_manager !! strip "/r/notes.txt" = Some Locked ->
   @add_task tasks_host on_main "Notes" "/r/notes.txt" "" notes_manager =
     (Ok (Warned "No Git Repository"
            ("No git repositories found in:" +:+ String (ascii_of_nat 10) (strip "/r/notes.txt"))),
      notes_manager)).
Proof.
  split; [vm_compute; reflexivity|].
  apply (@add_task_root_not_a_directory tasks_host on_main "Notes" "/r/notes.txt" ""
           notes_manager).
  vm_compute. reflexivity.
Defined.

End TasksInstances.
